(** * ParkourGame: the AParkourGameCharacter class

    A shallow embedding of [Source/ParkourGame/ParkourGameCharacter.cpp].

    The class is a thin layer over a host game engine.  What the class itself
    does is embedded here function by function; what the engine does is kept
    apart:

    - services whose result the class cannot compute (the collision sweep, the
      base class's tick, the rotation matrix, the frame time) are fields of
      the record [Engine], so every statement quantifies over them;
    - engine setters the class invokes ([SetMovementMode],
      [StopMovementImmediately], [PlayAnimMontage], ...) are given their
      documented effect on the component they belong to, and every invocation
      is also written to a call log, in program order.

    [float] is IEEE-754 binary32, taken from the Standard Library's executable
    specification [SpecFloat]. *)

From Stdlib Require Import ZArith Bool List String Lia.
From Stdlib Require Import Floats.SpecFloat.
Import ListNotations.

(* ------------------------------------------------------------------ *)
(** ** C++ [float] *)

Module Float32.

Definition prec : Z := 24.
Definition emax : Z := 128.

Definition float : Type := spec_float.

(** A decimal literal with an integral value, [150.0f], or an [int]
    converted to [float]. *)
Definition of_Z (z : Z) : float := binary_normalize prec emax z 0 false.

(** [m * 2^e] rounded to nearest, for literals such as [0.2f]. *)
Definition of_bits (m e : Z) : float := binary_normalize prec emax m e false.

Definition zero : float := S754_zero false.

Definition add (x y : float) : float := SFadd prec emax x y.
Definition sub (x y : float) : float := SFsub prec emax x y.
Definition mul (x y : float) : float := SFmul prec emax x y.
Definition opp (x : float) : float := SFopp x.

(** The C++ comparison operators; every one of them is false on a NaN
    except [!=]. *)
Definition eqb (x y : float) : bool := SFeqb x y.
Definition neqb (x y : float) : bool := negb (SFeqb x y).
Definition ltb (x y : float) : bool := SFltb x y.
Definition leb (x y : float) : bool := SFleb x y.
Definition gtb (x y : float) : bool := SFltb y x.
Definition geb (x y : float) : bool := SFleb y x.

(** The order on floats as a proposition: [x] compares below or equal to
    [y]; it holds of no pair that contains a NaN. *)
Definition le (x y : float) : Prop :=
  SFcompare x y = Some Lt \/ SFcompare x y = Some Eq.

End Float32.

Abbreviation float := Float32.float.
Abbreviation f32 := Float32.of_Z.

Declare Scope f32_scope.
Delimit Scope f32_scope with f32.
Infix "+" := Float32.add : f32_scope.
Infix "-" := Float32.sub : f32_scope.
Infix "*" := Float32.mul : f32_scope.
Notation "- x" := (Float32.opp x) : f32_scope.
Infix "==" := Float32.eqb (at level 70, no associativity) : f32_scope.
Infix "!=" := Float32.neqb (at level 70, no associativity) : f32_scope.
Infix "<=?" := Float32.leb : f32_scope.
Infix "<?" := Float32.ltb : f32_scope.
Infix ">=?" := Float32.geb (at level 70, no associativity) : f32_scope.
Infix ">?" := Float32.gtb (at level 70, no associativity) : f32_scope.

(* ------------------------------------------------------------------ *)
(** ** Engine value types *)

(** [FVector]: three floats, with the componentwise operators the class
    uses. *)
Module FVector.

Record t : Type := mk { X : float; Y : float; Z : float }.

Definition ZeroVector : t := mk Float32.zero Float32.zero Float32.zero.

(** [operator+( const FVector& )] *)
Definition add (a b : t) : t :=
  mk (X a + X b)%f32 (Y a + Y b)%f32 (Z a + Z b)%f32.

(** [operator-( const FVector& )] *)
Definition sub (a b : t) : t :=
  mk (X a - X b)%f32 (Y a - Y b)%f32 (Z a - Z b)%f32.

(** [operator*( float )] *)
Definition scale (a : t) (s : float) : t :=
  mk (X a * s)%f32 (Y a * s)%f32 (Z a * s)%f32.

End FVector.

Abbreviation FVector := FVector.t.

Declare Scope vec_scope.
Delimit Scope vec_scope with vec.
Infix "+" := FVector.add : vec_scope.
Infix "-" := FVector.sub : vec_scope.
Infix "*" := FVector.scale : vec_scope.

Record FRotator : Type := mkFRotator
  { Pitch : float; Yaw : float; Roll : float }.

Inductive EAxis : Type := EAxis_None | EAxis_X | EAxis_Y | EAxis_Z.

Inductive EMovementMode : Type :=
| MOVE_None | MOVE_Walking | MOVE_NavWalking | MOVE_Falling
| MOVE_Swimming | MOVE_Flying | MOVE_Custom.

Inductive FLinearColor : Type := Color_Red | Color_Blue.

Inductive ECollisionChannel : Type := ECC_Visibility | ECC_Camera.

Inductive EDrawDebugTrace : Type :=
| DrawDebug_None | DrawDebug_ForOneFrame | DrawDebug_ForDuration
| DrawDebug_Persistent.

Inductive EInputEvent : Type := IE_Pressed | IE_Released.

(** Objects the class only holds references to. *)
Definition AActor : Type := nat.
Definition UAnimMontage : Type := string.
Definition ETouchIndex : Type := nat.

(** The fields of [FHitResult] the class reads, and the trace end points the
    sweep records. *)
Record FHitResult : Type := mkFHitResult
  { bBlockingHit : bool;
    Location : FVector;
    Normal : FVector;
    TraceStart : FVector;
    TraceEnd : FVector }.

(** [FHitResult hit( ForceInit )]: every member zeroed. *)
Definition FHitResult_ForceInit : FHitResult :=
  {| bBlockingHit := false;
     Location := FVector.ZeroVector;
     Normal := FVector.ZeroVector;
     TraceStart := FVector.ZeroVector;
     TraceEnd := FVector.ZeroVector |}.

(** The arguments of one [UKismetSystemLibrary::SphereTraceSingle] call. *)
Record FSphereTrace : Type := mkFSphereTrace
  { Start : FVector;
    End_ : FVector;
    Radius : float;
    TraceChannel : ECollisionChannel;
    bTraceComplex : bool;
    ActorsToIgnore : list (option AActor);
    DrawDebugType : EDrawDebugTrace;
    bIgnoreSelf : bool;
    TraceColor : FLinearColor }.

(** [UKismetMathLibrary::InRange_FloatFloat]. *)
Definition InRange_FloatFloat
    (Value Min Max : float) (InclusiveMin InclusiveMax : bool) : bool :=
  (if InclusiveMin then (Value >=? Min)%f32 else (Value >? Min)%f32)
  && (if InclusiveMax then (Value <=? Max)%f32 else (Value <? Max)%f32).

(* ------------------------------------------------------------------ *)
(** ** The character object *)

(** [UCharacterMovementComponent]: the members the class writes. *)
Record UCharacterMovementComponent : Type := mkMovement
  { MovementMode : EMovementMode;
    Velocity : FVector;
    MaxWalkSpeed : float;
    bOrientRotationToMovement : bool;
    RotationRate : FRotator;
    JumpZVelocity : float;
    AirControl : float }.

(** A montage held by the anim instance: which asset, at which rate, and
    whether it is advancing. *)
Record FAnimMontageInstance : Type := mkMontageInstance
  { Montage : UAnimMontage;
    PlayRate : float;
    bPlaying : bool }.

Record UAnimInstance : Type := mkAnimInstance
  { ActiveMontage : option FAnimMontageInstance }.

(** The skeletal mesh.  Its anim instance comes from the derived blueprint
    (see the note closing the constructor), so it is present. *)
Record USkeletalMeshComponent : Type := mkMesh
  { AnimInstance : UAnimInstance;
    SocketLocation : string -> FVector }.

Record UCapsuleComponent : Type := mkCapsule
  { CapsuleRadius : float; CapsuleHalfHeight : float }.

Record AController : Type := mkController
  { ControlRotation : FRotator }.

(** The [ACharacter] base sub-object: what the class reads or writes of the
    members it inherits.  [Controller] is [None] for [nullptr]. *)
Record ACharacter : Type := mkACharacter
  { Owner : option AActor;
    ActorLocation : FVector;
    ActorForwardVector : FVector;
    Controller : option AController;
    CharacterMovement : UCharacterMovementComponent;
    Mesh : USkeletalMeshComponent;
    CapsuleComponent : UCapsuleComponent;
    ControlInputVector : FVector;
    bPressedJump : bool;
    bUseControllerRotationPitch : bool;
    bUseControllerRotationYaw : bool;
    bUseControllerRotationRoll : bool }.

Inductive USceneComponent : Type :=
| RootComponent | CameraBoomComponent | FollowCameraComponent.

Record USpringArmComponent : Type := mkSpringArm
  { BoomAttachParent : USceneComponent;
    TargetArmLength : float;
    BoomUsePawnControlRotation : bool }.

Record UCameraComponent : Type := mkCamera
  { CameraAttachParent : USceneComponent;
    CameraAttachSocket : string;
    CameraUsePawnControlRotation : bool }.

(** The object itself: the base sub-object, then the members the class
    declares. *)
Record AParkourGameCharacter : Type := mkCharacter
  { Super : ACharacter;
    CameraBoom : USpringArmComponent;
    FollowCamera : UCameraComponent;
    BaseTurnRate : float;
    BaseLookUpRate : float;
    Climb : UAnimMontage;
    m_wallNormal : FVector;
    m_wallLocation : FVector;
    m_isClimbing : bool }.

(** *** Field updates *)

Definition set_MovementMode (m : EMovementMode)
    (c : UCharacterMovementComponent) : UCharacterMovementComponent :=
  {| MovementMode := m; Velocity := Velocity c;
     MaxWalkSpeed := MaxWalkSpeed c;
     bOrientRotationToMovement := bOrientRotationToMovement c;
     RotationRate := RotationRate c; JumpZVelocity := JumpZVelocity c;
     AirControl := AirControl c |}.

Definition set_Velocity (v : FVector)
    (c : UCharacterMovementComponent) : UCharacterMovementComponent :=
  {| MovementMode := MovementMode c; Velocity := v;
     MaxWalkSpeed := MaxWalkSpeed c;
     bOrientRotationToMovement := bOrientRotationToMovement c;
     RotationRate := RotationRate c; JumpZVelocity := JumpZVelocity c;
     AirControl := AirControl c |}.

Definition set_MaxWalkSpeed (s : float)
    (c : UCharacterMovementComponent) : UCharacterMovementComponent :=
  {| MovementMode := MovementMode c; Velocity := Velocity c;
     MaxWalkSpeed := s;
     bOrientRotationToMovement := bOrientRotationToMovement c;
     RotationRate := RotationRate c; JumpZVelocity := JumpZVelocity c;
     AirControl := AirControl c |}.

Definition set_AnimInstance (a : UAnimInstance)
    (m : USkeletalMeshComponent) : USkeletalMeshComponent :=
  {| AnimInstance := a; SocketLocation := SocketLocation m |}.

Definition set_CharacterMovement (m : UCharacterMovementComponent)
    (a : ACharacter) : ACharacter :=
  {| Owner := Owner a; ActorLocation := ActorLocation a;
     ActorForwardVector := ActorForwardVector a;
     Controller := Controller a; CharacterMovement := m; Mesh := Mesh a;
     CapsuleComponent := CapsuleComponent a;
     ControlInputVector := ControlInputVector a;
     bPressedJump := bPressedJump a;
     bUseControllerRotationPitch := bUseControllerRotationPitch a;
     bUseControllerRotationYaw := bUseControllerRotationYaw a;
     bUseControllerRotationRoll := bUseControllerRotationRoll a |}.

Definition set_Mesh (m : USkeletalMeshComponent)
    (a : ACharacter) : ACharacter :=
  {| Owner := Owner a; ActorLocation := ActorLocation a;
     ActorForwardVector := ActorForwardVector a;
     Controller := Controller a;
     CharacterMovement := CharacterMovement a; Mesh := m;
     CapsuleComponent := CapsuleComponent a;
     ControlInputVector := ControlInputVector a;
     bPressedJump := bPressedJump a;
     bUseControllerRotationPitch := bUseControllerRotationPitch a;
     bUseControllerRotationYaw := bUseControllerRotationYaw a;
     bUseControllerRotationRoll := bUseControllerRotationRoll a |}.

Definition set_ControlInputVector (v : FVector)
    (a : ACharacter) : ACharacter :=
  {| Owner := Owner a; ActorLocation := ActorLocation a;
     ActorForwardVector := ActorForwardVector a;
     Controller := Controller a;
     CharacterMovement := CharacterMovement a; Mesh := Mesh a;
     CapsuleComponent := CapsuleComponent a;
     ControlInputVector := v;
     bPressedJump := bPressedJump a;
     bUseControllerRotationPitch := bUseControllerRotationPitch a;
     bUseControllerRotationYaw := bUseControllerRotationYaw a;
     bUseControllerRotationRoll := bUseControllerRotationRoll a |}.

Definition set_bPressedJump (b : bool) (a : ACharacter) : ACharacter :=
  {| Owner := Owner a; ActorLocation := ActorLocation a;
     ActorForwardVector := ActorForwardVector a;
     Controller := Controller a;
     CharacterMovement := CharacterMovement a; Mesh := Mesh a;
     CapsuleComponent := CapsuleComponent a;
     ControlInputVector := ControlInputVector a;
     bPressedJump := b;
     bUseControllerRotationPitch := bUseControllerRotationPitch a;
     bUseControllerRotationYaw := bUseControllerRotationYaw a;
     bUseControllerRotationRoll := bUseControllerRotationRoll a |}.

Definition set_Super (a : ACharacter)
    (c : AParkourGameCharacter) : AParkourGameCharacter :=
  {| Super := a; CameraBoom := CameraBoom c; FollowCamera := FollowCamera c;
     BaseTurnRate := BaseTurnRate c; BaseLookUpRate := BaseLookUpRate c;
     Climb := Climb c; m_wallNormal := m_wallNormal c;
     m_wallLocation := m_wallLocation c; m_isClimbing := m_isClimbing c |}.

Definition set_m_wallNormal (v : FVector)
    (c : AParkourGameCharacter) : AParkourGameCharacter :=
  {| Super := Super c; CameraBoom := CameraBoom c;
     FollowCamera := FollowCamera c;
     BaseTurnRate := BaseTurnRate c; BaseLookUpRate := BaseLookUpRate c;
     Climb := Climb c; m_wallNormal := v;
     m_wallLocation := m_wallLocation c; m_isClimbing := m_isClimbing c |}.

Definition set_m_wallLocation (v : FVector)
    (c : AParkourGameCharacter) : AParkourGameCharacter :=
  {| Super := Super c; CameraBoom := CameraBoom c;
     FollowCamera := FollowCamera c;
     BaseTurnRate := BaseTurnRate c; BaseLookUpRate := BaseLookUpRate c;
     Climb := Climb c; m_wallNormal := m_wallNormal c;
     m_wallLocation := v; m_isClimbing := m_isClimbing c |}.

Definition set_m_isClimbing (b : bool)
    (c : AParkourGameCharacter) : AParkourGameCharacter :=
  {| Super := Super c; CameraBoom := CameraBoom c;
     FollowCamera := FollowCamera c;
     BaseTurnRate := BaseTurnRate c; BaseLookUpRate := BaseLookUpRate c;
     Climb := Climb c; m_wallNormal := m_wallNormal c;
     m_wallLocation := m_wallLocation c; m_isClimbing := b |}.

(* ------------------------------------------------------------------ *)
(** ** The host engine *)

(** What the class asks of the engine and cannot compute itself.

    - [engine_SphereTraceSingle q hit]: the sweep [q] against the world; [hit] is
      the [FHitResult] passed by reference, the result is the returned
      [bool] and the hit as the call leaves it.
    - [engine_ActorTick dt a]: [Super::Tick( DeltaTime )], the base class's share of
      a frame, acting on the base sub-object.
    - [engine_GetUnitAxis r axis]: [FRotationMatrix( r ).GetUnitAxis( axis )].
    - [engine_DeltaSeconds]: [GetWorld()->GetDeltaSeconds()]. *)
Record Engine : Type := mkEngine
  { engine_SphereTraceSingle : FSphereTrace -> FHitResult -> bool * FHitResult;
    engine_ActorTick : float -> ACharacter -> ACharacter;
    engine_GetUnitAxis : FRotator -> EAxis -> FVector;
    engine_DeltaSeconds : float }.

(** One entry of the call log: an engine function the class invoked, with
    the arguments it passed. *)
Inductive EngineCall : Type :=
| Call_SphereTraceSingle (q : FSphereTrace)
| Call_SetMovementMode (m : EMovementMode)
| Call_StopMovementImmediately
| Call_PlayAnimMontage (montage : UAnimMontage) (rate : float)
| Call_Montage_Pause
| Call_AddMovementInput (WorldDirection : FVector) (ScaleValue : float)
| Call_AddControllerYawInput (Val : float)
| Call_AddControllerPitchInput (Val : float)
| Call_Jump
| Call_StopJumping
| Call_ResetOrientationAndPosition.

(* ------------------------------------------------------------------ *)
(** ** Member functions as computations

    A member function reads the engine, updates [this] and appends to the
    call log. *)

Definition M (A : Type) : Type :=
  Engine -> AParkourGameCharacter ->
  A * AParkourGameCharacter * list EngineCall.

Definition ret {A} (a : A) : M A := fun _ c => (a, c, []).

Definition bind {A B} (m : M A) (k : A -> M B) : M B :=
  fun e c =>
    let '(a, c1, l1) := m e c in
    let '(b, c2, l2) := k a e c1 in
    (b, c2, l1 ++ l2).

Notation "x <- m ;; k" := (bind m (fun x => k))
  (at level 61, m at next level, right associativity).
Notation "' pat <- m ;; k" := (bind m (fun x => let pat := x in k))
  (at level 61, pat pattern, m at next level, right associativity).
Notation "m ;; k" := (bind m (fun _ => k))
  (at level 61, right associativity).

Definition this : M AParkourGameCharacter := fun _ c => (c, c, []).
Definition engine : M Engine := fun e c => (e, c, []).
Definition modify (f : AParkourGameCharacter -> AParkourGameCharacter)
  : M unit := fun _ c => (tt, f c, []).
Definition emit (call : EngineCall) : M unit := fun _ c => (tt, c, [call]).

Definition modify_Super (f : ACharacter -> ACharacter) : M unit :=
  modify (fun c => set_Super (f (Super c)) c).

Definition modify_CharacterMovement
    (f : UCharacterMovementComponent -> UCharacterMovementComponent)
  : M unit :=
  modify_Super (fun a => set_CharacterMovement (f (CharacterMovement a)) a).

Definition modify_AnimInstance (f : UAnimInstance -> UAnimInstance)
  : M unit :=
  modify_Super
    (fun a => set_Mesh (set_AnimInstance (f (AnimInstance (Mesh a))) (Mesh a)) a).

(** The three projections of a run. *)
Definition state_of {A} (m : M A) (e : Engine) (c : AParkourGameCharacter)
  : AParkourGameCharacter := snd (fst (m e c)).
Definition calls_of {A} (m : M A) (e : Engine) (c : AParkourGameCharacter)
  : list EngineCall := snd (m e c).
Definition value_of {A} (m : M A) (e : Engine) (c : AParkourGameCharacter)
  : A := fst (fst (m e c)).

(* ------------------------------------------------------------------ *)
(** ** Engine functions the class calls

    Each one logs the call.  Getters read the base sub-object; setters have
    the effect the engine documents for them on the component they belong
    to. *)

Definition GetActorLocation : M FVector :=
  c <- this ;; ret (ActorLocation (Super c)).

Definition GetActorForwardVector : M FVector :=
  c <- this ;; ret (ActorForwardVector (Super c)).

Definition GetOwner : M (option AActor) :=
  c <- this ;; ret (Owner (Super c)).

Definition GetController : M (option AController) :=
  c <- this ;; ret (Controller (Super c)).

(** [GetMesh()->GetSocketLocation( name )] *)
Definition GetSocketLocation (name : string) : M FVector :=
  c <- this ;; ret (SocketLocation (Mesh (Super c)) name).

(** [GetWorld()->GetDeltaSeconds()] *)
Definition GetDeltaSeconds : M float :=
  e <- engine ;; ret (engine_DeltaSeconds e).

(** [FRotationMatrix( r ).GetUnitAxis( axis )] *)
Definition GetUnitAxis (r : FRotator) (axis : EAxis) : M FVector :=
  e <- engine ;; ret (engine_GetUnitAxis e r axis).

Definition SphereTraceSingle (q : FSphereTrace) (hit : FHitResult)
  : M (bool * FHitResult) :=
  emit (Call_SphereTraceSingle q) ;;
  e <- engine ;;
  ret (engine_SphereTraceSingle e q hit).

(** [Super::Tick( DeltaTime )] *)
Definition Super_Tick (DeltaTime : float) : M unit :=
  e <- engine ;;
  modify_Super (engine_ActorTick e DeltaTime).

(** [GetCharacterMovement()->SetMovementMode( m )]: the component's mode
    becomes [m]. *)
Definition SetMovementMode (m : EMovementMode) : M unit :=
  emit (Call_SetMovementMode m) ;;
  modify_CharacterMovement (set_MovementMode m).

(** [GetCharacterMovement()->StopMovementImmediately()]: the velocity is
    zeroed. *)
Definition StopMovementImmediately : M unit :=
  emit Call_StopMovementImmediately ;;
  modify_CharacterMovement (set_Velocity FVector.ZeroVector).

(** [PlayAnimMontage( montage, rate )]: the anim instance starts playing
    [montage] at [rate]. *)
Definition PlayAnimMontage (AnimMontage : UAnimMontage) (InPlayRate : float)
  : M unit :=
  emit (Call_PlayAnimMontage AnimMontage InPlayRate) ;;
  modify_AnimInstance
    (fun _ => mkAnimInstance (Some (mkMontageInstance AnimMontage InPlayRate true))).

(** [GetMesh()->GetAnimInstance()->Montage_Pause()]: the active montage, if
    there is one, stops advancing. *)
Definition Montage_Pause : M unit :=
  emit Call_Montage_Pause ;;
  modify_AnimInstance
    (fun a =>
       mkAnimInstance
         (option_map (fun mi => mkMontageInstance (Montage mi) (PlayRate mi) false)
                     (ActiveMontage a))).

(** [AddMovementInput( WorldDirection, ScaleValue )]: the scaled direction is
    accumulated into the pawn's pending input vector. *)
Definition AddMovementInput (WorldDirection : FVector) (ScaleValue : float)
  : M unit :=
  emit (Call_AddMovementInput WorldDirection ScaleValue) ;;
  modify_Super
    (fun a =>
       set_ControlInputVector
         (ControlInputVector a + WorldDirection * ScaleValue)%vec a).

(** The controller is an object of its own; input added to it leaves the
    character untouched. *)
Definition AddControllerYawInput (Val : float) : M unit :=
  emit (Call_AddControllerYawInput Val).

Definition AddControllerPitchInput (Val : float) : M unit :=
  emit (Call_AddControllerPitchInput Val).

Definition Jump : M unit :=
  emit Call_Jump ;; modify_Super (set_bPressedJump true).

Definition StopJumping : M unit :=
  emit Call_StopJumping ;; modify_Super (set_bPressedJump false).

(** [UHeadMountedDisplayFunctionLibrary::ResetOrientationAndPosition()] *)
Definition ResetOrientationAndPosition : M unit :=
  emit Call_ResetOrientationAndPosition.

(* ------------------------------------------------------------------ *)
(** ** AParkourGameCharacter *)

(** The constructor.  [base] is the [ACharacter] sub-object as the engine
    built it and [climb] the montage asset the blueprint assigns.
    [m_wallNormal()] and [m_wallLocation()] run [FVector]'s default
    constructor, which initialises nothing: [wallNormal0] and [wallLocation0]
    stand for whatever the memory held. *)
Definition AParkourGameCharacter_ctor
    (base : ACharacter) (climb : UAnimMontage)
    (wallNormal0 wallLocation0 : FVector) : AParkourGameCharacter :=
  {| Super :=
       {| Owner := Owner base;
          ActorLocation := ActorLocation base;
          ActorForwardVector := ActorForwardVector base;
          Controller := Controller base;
          CharacterMovement :=
            {| MovementMode := MovementMode (CharacterMovement base);
               Velocity := Velocity (CharacterMovement base);
               MaxWalkSpeed := MaxWalkSpeed (CharacterMovement base);
               bOrientRotationToMovement := true;
               RotationRate := mkFRotator (f32 0) (f32 540) (f32 0);
               JumpZVelocity := f32 600;
               AirControl := Float32.of_bits 13421773 (-26) |};
          Mesh := Mesh base;
          CapsuleComponent := mkCapsule (f32 42) (f32 96);
          ControlInputVector := ControlInputVector base;
          bPressedJump := bPressedJump base;
          bUseControllerRotationPitch := false;
          bUseControllerRotationYaw := false;
          bUseControllerRotationRoll := false |};
     CameraBoom := mkSpringArm RootComponent (f32 300) true;
     FollowCamera := mkCamera CameraBoomComponent "SpringEndpoint" false;
     BaseTurnRate := f32 45;
     BaseLookUpRate := f32 45;
     Climb := climb;
     m_wallNormal := wallNormal0;
     m_wallLocation := wallLocation0;
     m_isClimbing := false |}.

(** [Hang].  [Climb] is the montage member the blueprint fills in;
    [PlayAnimMontage]'s returned duration is dropped, as in the source. *)
Definition Hang : M unit :=
  c <- this ;;
  PlayAnimMontage (Climb c) (f32 1) ;;
  Montage_Pause ;;
  modify (set_m_isClimbing true).

(** [ForwardTrace].  The source also builds an [FCollisionQueryParams
    traceParams] that it never passes on; it has no effect and is left out.
    [bHit] is computed and not used. *)
Definition ForwardTrace : M unit :=
  start <- GetActorLocation ;;
  fwd <- GetActorForwardVector ;;
  let end_ := ((fwd * f32 150) + start)%vec in
  owner <- GetOwner ;;
  let ActorsToIgnore := [owner] in
  let hit := FHitResult_ForceInit in
  r <- SphereTraceSingle
         (mkFSphereTrace start end_ (f32 10) ECC_Visibility false
            ActorsToIgnore DrawDebug_ForOneFrame true Color_Red) hit ;;
  let bHit := fst r in
  let hit := snd r in
  modify (set_m_wallNormal (Normal hit)) ;;
  modify (set_m_wallLocation (Location hit)).

(** [HeightTrace].  As in [ForwardTrace], the unused [traceParams] is left
    out. *)
Definition HeightTrace : M unit :=
  loc <- GetActorLocation ;;
  fwd <- GetActorForwardVector ;;
  let start :=
    ((loc + (fwd * f32 75)) + FVector.mk (f32 0) (f32 0) (f32 500))%vec in
  let end_ := (start - FVector.mk (f32 0) (f32 0) (f32 500))%vec in
  owner <- GetOwner ;;
  let ActorsToIgnore := [owner] in
  let hit := FHitResult_ForceInit in
  r <- SphereTraceSingle
         (mkFSphereTrace start end_ (f32 10) ECC_Visibility false
            ActorsToIgnore DrawDebug_ForOneFrame true Color_Blue) hit ;;
  let bHit := fst r in
  let hit := snd r in
  if bHit then
    hips <- GetSocketLocation "HipsSocket" ;;
    let location :=
      InRange_FloatFloat
        (FVector.Z (Location hit) - FVector.Z hips)%f32
        (- f32 50)%f32 (f32 0) true true in
    if location then
      SetMovementMode MOVE_Flying ;;
      StopMovementImmediately ;;
      Hang
    else ret tt
  else ret tt.

(** [Tick]: the base class's tick, then the two traces. *)
Definition Tick (DeltaTime : float) : M unit :=
  Super_Tick DeltaTime ;;
  ForwardTrace ;;
  HeightTrace.

Definition OnResetVR : M unit := ResetOrientationAndPosition.

Definition TouchStarted (FingerIndex : ETouchIndex) (Loc : FVector) : M unit :=
  Jump.

Definition TouchStopped (FingerIndex : ETouchIndex) (Loc : FVector) : M unit :=
  StopJumping.

Definition TurnAtRate (Rate : float) : M unit :=
  c <- this ;;
  dt <- GetDeltaSeconds ;;
  AddControllerYawInput (Rate * BaseTurnRate c * dt)%f32.

Definition LookUpAtRate (Rate : float) : M unit :=
  c <- this ;;
  dt <- GetDeltaSeconds ;;
  AddControllerPitchInput (Rate * BaseLookUpRate c * dt)%f32.

Definition MoveForward (Value : float) : M unit :=
  ctl <- GetController ;;
  match ctl with
  | Some controller =>
      if (Value != f32 0)%f32 then
        let Rotation := ControlRotation controller in
        let YawRotation := mkFRotator (f32 0) (Yaw Rotation) (f32 0) in
        Direction <- GetUnitAxis YawRotation EAxis_X ;;
        AddMovementInput Direction Value
      else ret tt
  | None => ret tt
  end.

Definition MoveRight (Value : float) : M unit :=
  ctl <- GetController ;;
  c <- this ;;
  match ctl with
  | Some controller =>
      if (Value != f32 0)%f32 && Bool.eqb (m_isClimbing c) false then
        let Rotation := ControlRotation controller in
        let YawRotation := mkFRotator (f32 0) (Yaw Rotation) (f32 0) in
        Direction <- GetUnitAxis YawRotation EAxis_Y ;;
        AddMovementInput Direction Value
      else ret tt
  | None => ret tt
  end.

Definition StartSprint : M unit :=
  modify_CharacterMovement (set_MaxWalkSpeed (f32 1000)).

Definition StopSprint : M unit :=
  modify_CharacterMovement (set_MaxWalkSpeed (f32 600)).

(* ------------------------------------------------------------------ *)
(** ** Input bindings *)

(** The member functions bound to inputs, by the signature the binding
    requires. *)
Inductive ActionHandler : Type :=
| Handler_Jump | Handler_StopJumping | Handler_OnResetVR
| Handler_StartSprint | Handler_StopSprint.

Inductive AxisHandler : Type :=
| Handler_MoveForward | Handler_MoveRight
| Handler_AddControllerYawInput | Handler_TurnAtRate
| Handler_AddControllerPitchInput | Handler_LookUpAtRate.

Inductive TouchHandler : Type :=
| Handler_TouchStarted | Handler_TouchStopped.

Inductive Binding : Type :=
| BindAction (name : string) (ev : EInputEvent) (h : ActionHandler)
| BindAxis (name : string) (h : AxisHandler)
| BindTouch (ev : EInputEvent) (h : TouchHandler).

(** [SetupPlayerInputComponent]: the bindings it adds to the component, in
    the order it adds them. *)
Definition SetupPlayerInputComponent (PlayerInputComponent : list Binding)
  : list Binding :=
  PlayerInputComponent ++
  [ BindAction "Jump" IE_Pressed Handler_Jump;
    BindAction "Jump" IE_Released Handler_StopJumping;
    BindAxis "MoveForward" Handler_MoveForward;
    BindAxis "MoveRight" Handler_MoveRight;
    BindAxis "Turn" Handler_AddControllerYawInput;
    BindAxis "TurnRate" Handler_TurnAtRate;
    BindAxis "LookUp" Handler_AddControllerPitchInput;
    BindAxis "LookUpRate" Handler_LookUpAtRate;
    BindTouch IE_Pressed Handler_TouchStarted;
    BindTouch IE_Released Handler_TouchStopped;
    BindAction "ResetVR" IE_Pressed Handler_OnResetVR;
    BindAction "Sprint" IE_Pressed Handler_StartSprint;
    BindAction "Sprint" IE_Released Handler_StopSprint ].

Definition call_action (h : ActionHandler) : M unit :=
  match h with
  | Handler_Jump => Jump
  | Handler_StopJumping => StopJumping
  | Handler_OnResetVR => OnResetVR
  | Handler_StartSprint => StartSprint
  | Handler_StopSprint => StopSprint
  end.

Definition call_axis (h : AxisHandler) (Value : float) : M unit :=
  match h with
  | Handler_MoveForward => MoveForward Value
  | Handler_MoveRight => MoveRight Value
  | Handler_AddControllerYawInput => AddControllerYawInput Value
  | Handler_TurnAtRate => TurnAtRate Value
  | Handler_AddControllerPitchInput => AddControllerPitchInput Value
  | Handler_LookUpAtRate => LookUpAtRate Value
  end.

Definition call_touch (h : TouchHandler) (i : ETouchIndex) (l : FVector)
  : M unit :=
  match h with
  | Handler_TouchStarted => TouchStarted i l
  | Handler_TouchStopped => TouchStopped i l
  end.

(** What the player's devices deliver. *)
Inductive InputEvent : Type :=
| Input_Action (name : string) (ev : EInputEvent)
| Input_Axis (name : string) (Value : float)
| Input_Touch (ev : EInputEvent) (FingerIndex : ETouchIndex) (Loc : FVector).

Definition EInputEvent_eqb (a b : EInputEvent) : bool :=
  match a, b with
  | IE_Pressed, IE_Pressed | IE_Released, IE_Released => true
  | _, _ => false
  end.

(** The handlers an input reaches through one binding. *)
Definition fire (i : InputEvent) (b : Binding) : M unit :=
  match i, b with
  | Input_Action n ev, BindAction n' ev' h =>
      if String.eqb n n' && EInputEvent_eqb ev ev' then call_action h
      else ret tt
  | Input_Axis n v, BindAxis n' h =>
      if String.eqb n n' then call_axis h v else ret tt
  | Input_Touch ev i l, BindTouch ev' h =>
      if EInputEvent_eqb ev ev' then call_touch h i l else ret tt
  | _, _ => ret tt
  end.

(** Delivery of one input: every binding is tried, in binding order. *)
Fixpoint deliver (bindings : list Binding) (i : InputEvent) : M unit :=
  match bindings with
  | [] => ret tt
  | b :: rest => fire i b ;; deliver rest i
  end.

(* ------------------------------------------------------------------ *)
(** ** Operations and runs *)

(** Every way into the class: its member functions, and an input delivered
    through the bindings [SetupPlayerInputComponent] installs (which also
    reaches the inherited handlers bound there). *)
Inductive Op : Type :=
| Op_Tick (DeltaTime : float)
| Op_Hang
| Op_ForwardTrace
| Op_HeightTrace
| Op_OnResetVR
| Op_TouchStarted (FingerIndex : ETouchIndex) (Loc : FVector)
| Op_TouchStopped (FingerIndex : ETouchIndex) (Loc : FVector)
| Op_TurnAtRate (Rate : float)
| Op_LookUpAtRate (Rate : float)
| Op_MoveForward (Value : float)
| Op_MoveRight (Value : float)
| Op_StartSprint
| Op_StopSprint
| Op_Input (i : InputEvent).

Definition exec (op : Op) : M unit :=
  match op with
  | Op_Tick dt => Tick dt
  | Op_Hang => Hang
  | Op_ForwardTrace => ForwardTrace
  | Op_HeightTrace => HeightTrace
  | Op_OnResetVR => OnResetVR
  | Op_TouchStarted i l => TouchStarted i l
  | Op_TouchStopped i l => TouchStopped i l
  | Op_TurnAtRate r => TurnAtRate r
  | Op_LookUpAtRate r => LookUpAtRate r
  | Op_MoveForward v => MoveForward v
  | Op_MoveRight v => MoveRight v
  | Op_StartSprint => StartSprint
  | Op_StopSprint => StopSprint
  | Op_Input i => deliver (SetupPlayerInputComponent []) i
  end.

(** A run: operations one after the other, each against the engine as it is
    when the operation happens. *)
Fixpoint run (ops : list (Engine * Op)) (c : AParkourGameCharacter)
  : AParkourGameCharacter :=
  match ops with
  | [] => c
  | (e, op) :: rest => run rest (state_of (exec op) e c)
  end.

Fixpoint run_calls (ops : list (Engine * Op)) (c : AParkourGameCharacter)
  : list EngineCall :=
  match ops with
  | [] => []
  | (e, op) :: rest =>
      calls_of (exec op) e c ++ run_calls rest (state_of (exec op) e c)
  end.

(** A sequence of frames: what the engine answers in each frame (its trace
    results among them) and the frame's [DeltaTime]. *)
Definition frames (fs : list (Engine * float)) : list (Engine * Op) :=
  map (fun f => (fst f, Op_Tick (snd f))) fs.

(** The states a character can be in: built by the constructor, then driven
    by any run. *)
Definition Reachable (s : AParkourGameCharacter) : Prop :=
  exists base climb n0 l0 ops,
    s = run ops (AParkourGameCharacter_ctor base climb n0 l0).

(* ------------------------------------------------------------------ *)
(** ** Vocabulary of the statements *)

(** The query [ForwardTrace] issues for a character. *)
Definition forward_query (c : AParkourGameCharacter) : FSphereTrace :=
  let start := ActorLocation (Super c) in
  let fwd := ActorForwardVector (Super c) in
  mkFSphereTrace start ((fwd * f32 150) + start)%vec (f32 10)
    ECC_Visibility false [Owner (Super c)] DrawDebug_ForOneFrame true
    Color_Red.

(** The query [HeightTrace] issues for a character. *)
Definition height_query (c : AParkourGameCharacter) : FSphereTrace :=
  let loc := ActorLocation (Super c) in
  let fwd := ActorForwardVector (Super c) in
  let start :=
    ((loc + (fwd * f32 75)) + FVector.mk (f32 0) (f32 0) (f32 500))%vec in
  mkFSphereTrace start (start - FVector.mk (f32 0) (f32 0) (f32 500))%vec
    (f32 10) ECC_Visibility false [Owner (Super c)] DrawDebug_ForOneFrame
    true Color_Blue.

(** The downward trace of a frame: whether it hit, and where. *)
Definition height_hit (e : Engine) (c : AParkourGameCharacter)
  : bool * FHitResult :=
  engine_SphereTraceSingle e (height_query c) FHitResult_ForceInit.

(** The forward trace of a frame. *)
Definition forward_hit (e : Engine) (c : AParkourGameCharacter)
  : bool * FHitResult :=
  engine_SphereTraceSingle e (forward_query c) FHitResult_ForceInit.

(** Height of the hit point over the hips: the hit point's Z minus the Z of
    the mesh's HipsSocket. *)
Definition ledge_offset (e : Engine) (c : AParkourGameCharacter) : float :=
  (FVector.Z (Location (snd (height_hit e c)))
   - FVector.Z (SocketLocation (Mesh (Super c)) "HipsSocket"))%f32.

(** The inclusive band [-50, 0]. *)
Definition in_band (d : float) : Prop :=
  Float32.le (- f32 50)%f32 d /\ Float32.le d (f32 0).

(** A frame's downward trace found a ledge at an acceptable height. *)
Definition ledge_detected (e : Engine) (c : AParkourGameCharacter) : Prop :=
  fst (height_hit e c) = true /\ in_band (ledge_offset e c).

(** The climbing pose: flying, at rest, the Climb montage held paused. *)
Definition climbing_pose (c : AParkourGameCharacter) : Prop :=
  MovementMode (CharacterMovement (Super c)) = MOVE_Flying
  /\ Velocity (CharacterMovement (Super c)) = FVector.ZeroVector
  /\ ActiveMontage (AnimInstance (Mesh (Super c)))
     = Some (mkMontageInstance (Climb c) (f32 1) false)
  /\ m_isClimbing c = true.

(** The sphere traces among a list of calls, in order. *)
Fixpoint traces_of (l : list EngineCall) : list FSphereTrace :=
  match l with
  | [] => []
  | Call_SphereTraceSingle q :: rest => q :: traces_of rest
  | _ :: rest => traces_of rest
  end.

(** The movement inputs among a list of calls, in order. *)
Fixpoint movement_inputs_of (l : list EngineCall) : list (FVector * float) :=
  match l with
  | [] => []
  | Call_AddMovementInput d s :: rest => (d, s) :: movement_inputs_of rest
  | _ :: rest => movement_inputs_of rest
  end.

(** The movement modes requested in a list of calls, in order. *)
Fixpoint movement_modes_of (l : list EngineCall) : list EMovementMode :=
  match l with
  | [] => []
  | Call_SetMovementMode m :: rest => m :: movement_modes_of rest
  | _ :: rest => movement_modes_of rest
  end.

(** The character once [Super::Tick] has run: the engine has moved the base
    sub-object, the class's own members are as they were. *)
Definition after_Super_Tick (e : Engine) (dt : float)
    (c : AParkourGameCharacter) : AParkourGameCharacter :=
  set_Super (engine_ActorTick e dt (Super c)) c.

(** A character whose two wall members hold the forward trace's hit. *)
Definition with_wall (hit : FHitResult) (c : AParkourGameCharacter)
  : AParkourGameCharacter :=
  set_m_wallLocation (Location hit) (set_m_wallNormal (Normal hit) c).

(** The character as [HeightTrace] finds it within a frame. *)
Definition before_HeightTrace (e : Engine) (dt : float)
    (c : AParkourGameCharacter) : AParkourGameCharacter :=
  let c1 := after_Super_Tick e dt c in
  with_wall (snd (forward_hit e c1)) c1.

(** The calls that put the character into the climbing pose. *)
Definition climb_calls (c : AParkourGameCharacter) : list EngineCall :=
  [ Call_SetMovementMode MOVE_Flying;
    Call_StopMovementImmediately;
    Call_PlayAnimMontage (Climb c) (f32 1);
    Call_Montage_Pause ].

(** What the class can observe of the animation. *)
Definition animation_state (c : AParkourGameCharacter)
  : option FAnimMontageInstance :=
  ActiveMontage (AnimInstance (Mesh (Super c))).

(** Two movement components that agree on everything but [MaxWalkSpeed]. *)
Definition movement_same_but_MaxWalkSpeed
    (m m' : UCharacterMovementComponent) : Prop :=
  MovementMode m' = MovementMode m
  /\ Velocity m' = Velocity m
  /\ bOrientRotationToMovement m' = bOrientRotationToMovement m
  /\ RotationRate m' = RotationRate m
  /\ JumpZVelocity m' = JumpZVelocity m
  /\ AirControl m' = AirControl m.

(** Two base sub-objects that agree on everything but the movement
    component. *)
Definition base_same_but_CharacterMovement (a a' : ACharacter) : Prop :=
  Owner a' = Owner a
  /\ ActorLocation a' = ActorLocation a
  /\ ActorForwardVector a' = ActorForwardVector a
  /\ Controller a' = Controller a
  /\ Mesh a' = Mesh a
  /\ CapsuleComponent a' = CapsuleComponent a
  /\ ControlInputVector a' = ControlInputVector a
  /\ bPressedJump a' = bPressedJump a
  /\ bUseControllerRotationPitch a' = bUseControllerRotationPitch a
  /\ bUseControllerRotationYaw a' = bUseControllerRotationYaw a
  /\ bUseControllerRotationRoll a' = bUseControllerRotationRoll a.

(** Two characters that agree on everything but the walk speed. *)
Definition same_but_MaxWalkSpeed (c c' : AParkourGameCharacter) : Prop :=
  CameraBoom c' = CameraBoom c
  /\ FollowCamera c' = FollowCamera c
  /\ BaseTurnRate c' = BaseTurnRate c
  /\ BaseLookUpRate c' = BaseLookUpRate c
  /\ Climb c' = Climb c
  /\ m_wallNormal c' = m_wallNormal c
  /\ m_wallLocation c' = m_wallLocation c
  /\ m_isClimbing c' = m_isClimbing c
  /\ base_same_but_CharacterMovement (Super c) (Super c')
  /\ movement_same_but_MaxWalkSpeed
       (CharacterMovement (Super c)) (CharacterMovement (Super c')).

(** Two characters that agree on everything but the two wall members. *)
Definition same_but_wall (c c' : AParkourGameCharacter) : Prop :=
  Super c' = Super c
  /\ CameraBoom c' = CameraBoom c
  /\ FollowCamera c' = FollowCamera c
  /\ BaseTurnRate c' = BaseTurnRate c
  /\ BaseLookUpRate c' = BaseLookUpRate c
  /\ Climb c' = Climb c
  /\ m_isClimbing c' = m_isClimbing c.

(** The unit axis of the rotation with the controller's yaw and neither pitch
    nor roll. *)
Definition yaw_axis (e : Engine) (ctl : AController) (axis : EAxis) : FVector :=
  engine_GetUnitAxis e
    (mkFRotator (f32 0) (Yaw (ControlRotation ctl)) (f32 0)) axis.

(** The pending input vector of the pawn. *)
Definition pending_input (c : AParkourGameCharacter) : FVector :=
  ControlInputVector (Super c).

(** The engine's sweep, when it reports no hit from a force-initialised
    [FHitResult], leaves the zero location and normal in it. *)
Definition miss_leaves_ForceInit (e : Engine) (q : FSphereTrace) : Prop :=
  fst (engine_SphereTraceSingle e q FHitResult_ForceInit) = false ->
  Normal (snd (engine_SphereTraceSingle e q FHitResult_ForceInit))
    = FVector.ZeroVector
  /\ Location (snd (engine_SphereTraceSingle e q FHitResult_ForceInit))
    = FVector.ZeroVector.

(** The two states of the mode switch, read off the climbing flag. *)
Definition can_enter_climbing (s : AParkourGameCharacter) : Prop :=
  exists fs, m_isClimbing (run (frames fs) s) = true.

Definition can_return_to_locomotion (s : AParkourGameCharacter) : Prop :=
  exists fs, m_isClimbing (run (frames fs) s) = false.

(** The switch read as going both ways. *)
Definition two_way_switch : Prop :=
  forall s, Reachable s -> can_enter_climbing s /\ can_return_to_locomotion s.

(** The operations whose body reaches [Hang]. *)
Definition reaches_Hang (op : Op) : bool :=
  match op with
  | Op_Tick _ | Op_Hang | Op_HeightTrace => true
  | _ => false
  end.

(** A computation that neither touches the climbing flag nor requests a
    movement mode. *)
Definition quiet (m : M unit) : Prop :=
  forall e c,
    m_isClimbing (state_of m e c) = m_isClimbing c
    /\ movement_modes_of (calls_of m e c) = [].

(** A computation that can only raise the climbing flag and only ever
    requests [MOVE_Flying]. *)
Definition one_way (m : M unit) : Prop :=
  forall e c,
    (m_isClimbing (state_of m e c) = true
     \/ m_isClimbing (state_of m e c) = m_isClimbing c)
    /\ (forall mode, In mode (movement_modes_of (calls_of m e c)) ->
                     mode = MOVE_Flying).

(** *** Vocabulary of the further properties *)




(** A computation that leaves an observation [f] of the character as it
    was. *)
Definition preserves {T : Type} (f : AParkourGameCharacter -> T)
    (m : M unit) : Prop :=
  forall e c, f (state_of m e c) = f c.

(** The members the constructor configures and the blueprint fills in. *)
Definition configuration (c : AParkourGameCharacter)
  : USpringArmComponent * UCameraComponent * float * float * UAnimMontage :=
  (CameraBoom c, FollowCamera c, BaseTurnRate c, BaseLookUpRate c, Climb c).


(** The vector whose three components are NaN. *)
Definition nan_vector : FVector := FVector.mk S754_nan S754_nan S754_nan.

(** Zeros and finite numbers: the floats that are neither infinite nor
    NaN. *)
Definition is_finite (x : float) : bool :=
  match x with
  | S754_zero _ | S754_finite _ _ _ => true
  | _ => false
  end.

(** The band [-50, 0] read off the representation of a binary32 value. *)
Definition band_representation (d : float) : Prop :=
  match d with
  | S754_zero _ => True
  | S754_finite true m e =>
      (e < -18)%Z \/ (e = (-18)%Z /\ (m <= 13107200)%positive)
  | _ => False
  end.

(* ------------------------------------------------------------------ *)
(** ** Sample data *)

Module Sample.

Definition vec (x y z : Z) : FVector := FVector.mk (f32 x) (f32 y) (f32 z).

Definition movement : UCharacterMovementComponent :=
  {| MovementMode := MOVE_Walking;
     Velocity := vec 300 0 0;
     MaxWalkSpeed := f32 600;
     bOrientRotationToMovement := false;
     RotationRate := mkFRotator (f32 0) (f32 360) (f32 0);
     JumpZVelocity := f32 420;
     AirControl := f32 0 |}.

(** Hips 100 units up; every other socket at the origin. *)
Definition mesh : USkeletalMeshComponent :=
  {| AnimInstance := mkAnimInstance None;
     SocketLocation :=
       fun name =>
         if String.eqb name "HipsSocket" then vec 0 0 100 else vec 0 0 0 |}.

Definition base : ACharacter :=
  {| Owner := None;
     ActorLocation := vec 0 0 90;
     ActorForwardVector := vec 1 0 0;
     Controller := Some (mkController (mkFRotator (f32 10) (f32 90) (f32 5)));
     CharacterMovement := movement;
     Mesh := mesh;
     CapsuleComponent := mkCapsule (f32 34) (f32 88);
     ControlInputVector := vec 0 0 0;
     bPressedJump := false;
     bUseControllerRotationPitch := true;
     bUseControllerRotationYaw := true;
     bUseControllerRotationRoll := true |}.

(** A freshly constructed character, walking, whose wall members hold
    left-over values. *)
Definition character : AParkourGameCharacter :=
  AParkourGameCharacter_ctor base "Climb_Montage"%string (vec 0 1 0) (vec 7 8 9).

(** The same character with its climbing flag set. *)
Definition climber : AParkourGameCharacter := set_m_isClimbing true character.

(** The same character with no controller. *)
Definition unpossessed : AParkourGameCharacter :=
  set_Super
    {| Owner := None;
       ActorLocation := vec 0 0 90;
       ActorForwardVector := vec 1 0 0;
       Controller := None;
       CharacterMovement := movement;
       Mesh := mesh;
       CapsuleComponent := mkCapsule (f32 34) (f32 88);
       ControlInputVector := vec 0 0 0;
       bPressedJump := false;
       bUseControllerRotationPitch := true;
       bUseControllerRotationYaw := true;
       bUseControllerRotationRoll := true |}
    character.

(** Yaw 90 turns X onto Y; the table has the two axes the class asks for. *)
Definition unit_axis (r : FRotator) (axis : EAxis) : FVector :=
  match axis with
  | EAxis_X => vec 0 1 0
  | EAxis_Y => vec (-1) 0 0
  | _ => vec 0 0 1
  end.

(** An engine whose sweeps all hit a surface at height [z]. *)
Definition surface_at (z : Z) : Engine :=
  {| engine_SphereTraceSingle :=
       fun q hit =>
         (true,
          {| bBlockingHit := true;
             Location := FVector.mk (FVector.X (Start q)) (FVector.Y (Start q)) (f32 z);
             Normal := vec 0 0 1;
             TraceStart := Start q;
             TraceEnd := End_ q |});
     engine_ActorTick := fun _ a => a;
     engine_GetUnitAxis := unit_axis;
     engine_DeltaSeconds := Float32.of_bits 1 (-6) |}.

(** An engine in an empty world: every sweep misses and hands the hit back
    as it received it. *)
Definition empty_world : Engine :=
  {| engine_SphereTraceSingle := fun q hit => (false, hit);
     engine_ActorTick := fun _ a => a;
     engine_GetUnitAxis := unit_axis;
     engine_DeltaSeconds := Float32.of_bits 1 (-6) |}.

(** A ledge 20 units below the hips. *)
Definition ledge : Engine := surface_at 80.

(** A wall top 200 units above the hips. *)
Definition too_high : Engine := surface_at 300.

(** The character one frame later, a ledge in reach. *)
Definition hanging : AParkourGameCharacter :=
  run (frames [(ledge, Float32.of_bits 1 (-6))]) character.

(** An engine that plants the hips at the origin each frame and whose
    sweeps hit at the origin. *)
Definition obliging : Engine :=
  {| engine_SphereTraceSingle := fun q hit => (true, hit);
     engine_ActorTick :=
       fun _ a =>
         set_Mesh
           {| AnimInstance := AnimInstance (Mesh a);
              SocketLocation := fun _ => FVector.ZeroVector |} a;
     engine_GetUnitAxis := unit_axis;
     engine_DeltaSeconds := Float32.of_bits 1 (-6) |}.

End Sample.

(* ------------------------------------------------------------------ *)
(** ** Floats *)

Arguments Float32.of_Z : simpl never.
Arguments Float32.of_bits : simpl never.
Arguments Float32.add : simpl never.
Arguments Float32.sub : simpl never.
Arguments Float32.mul : simpl never.
Arguments Float32.opp : simpl never.
Arguments Float32.neqb : simpl never.
Arguments Float32.eqb : simpl never.
Arguments InRange_FloatFloat : simpl never.

Lemma leb_le (x y : float) : (x <=? y)%f32 = true <-> Float32.le x y.
Proof.
  unfold Float32.leb, SFleb, Float32.le.
  destruct (SFcompare x y) as [[ | | ]|]; split; intro H;
    try reflexivity; try discriminate; auto;
    destruct H as [H|H]; discriminate.
Qed.

(** The range test of [HeightTrace] decides membership in the band. *)
Lemma InRange_in_band (d : float) :
  InRange_FloatFloat d (- f32 50)%f32 (f32 0) true true = true <-> in_band d.
Proof.
  unfold InRange_FloatFloat, in_band, Float32.geb.
  rewrite andb_true_iff.
  change (SFleb (- f32 50)%f32 d) with ((- f32 50) <=? d)%f32.
  now rewrite !leb_le.
Qed.

(** The band on the representation: a float lies in it when it is a zero,
    or negative and finite with magnitude at most 50 (for a binary32 value
    the exponent settles it, except at exponent -18, where the mantissa of
    50 does). *)
Lemma in_band_spec (d : float) :
  in_band d <->
  match d with
  | S754_zero _ => True
  | S754_finite true m e =>
      (e < -18)%Z \/ (e = (-18)%Z /\ (m <= 13107200)%positive)
  | _ => False
  end.
Proof.
  unfold in_band, Float32.le.
  change (- f32 50)%f32 with (S754_finite true 13107200 (-18)).
  change (f32 0) with (S754_zero false).
  destruct d as [s|s| |s m e]; cbn [SFcompare].
  - split; [ trivial | intros _; split; [ left | right ]; reflexivity ].
  - destruct s; split; try contradiction; intros [[H|H] [K|K]]; discriminate.
  - split; [ | contradiction ]. intros [[H|H] _]; discriminate.
  - destruct s.
    + change (Pos.compare_cont Eq 13107200 m) with (Pos.compare 13107200 m).
      destruct (Z.compare_spec (-18) e) as [He|He|He].
      * destruct (Pos.compare_spec 13107200 m) as [Hm|Hm|Hm]; cbn [CompOpp];
          split.
        -- intros _. right. split; [ now symmetry | subst m; apply Pos.le_refl ].
        -- intros _. split; [ right | left ]; reflexivity.
        -- intros [[H|H] _]; discriminate.
        -- intros [H|[_ H]]; [ lia | ].
           exfalso. apply (Pos.lt_irrefl m).
           eapply Pos.le_lt_trans; [ exact H | exact Hm ].
        -- intros _. right. split; [ now symmetry | now apply Pos.lt_le_incl ].
        -- intros _. split; left; reflexivity.
      * split; [ intros [[H|H] _]; discriminate | intros [H|[H _]]; lia ].
      * split; [ intros _; left; lia | intros _; split; left; reflexivity ].
    + split; [ | contradiction ]. intros [_ [H|H]]; discriminate.
Qed.

(** A difference that is a NaN lies outside the band. *)
Lemma nan_not_in_band : ~ in_band S754_nan.
Proof. intros H. apply in_band_spec in H. exact H. Qed.

(** Subtracting the literal zero gives the operand back, bit for bit. *)
Lemma sub_zero (x : float) : (x - f32 0)%f32 = x.
Proof. destruct x as [[]|[]| |s m e]; reflexivity. Qed.

(** A NaN is different from zero; both zeros are equal to it. *)
Lemma nan_neq_zero : (S754_nan != f32 0)%f32 = true.
Proof. reflexivity. Qed.

Lemma negative_zero_eq_zero : (S754_zero true == f32 0)%f32 = true.
Proof. reflexivity. Qed.

Lemma neqb_eqb (x y : float) : (x != y)%f32 = negb (x == y)%f32.
Proof. reflexivity. Qed.

(** The literals are exact. *)
Example literal_1000 : f32 1000 = S754_finite false 16384000 (-14).
Proof. reflexivity. Qed.

Example literal_600 : f32 600 = S754_finite false 9830400 (-14).
Proof. reflexivity. Qed.

Example literal_minus_50 : (- f32 50)%f32 = S754_finite true 13107200 (-18).
Proof. reflexivity. Qed.

Example literal_150 : f32 150 = S754_finite false 9830400 (-16).
Proof. reflexivity. Qed.

Example literals_are_binary32 :
  forallb (valid_binary Float32.prec Float32.emax)
    [ f32 0; f32 1; f32 10; f32 42; f32 45; f32 75; f32 96; f32 150;
      f32 300; f32 500; f32 540; f32 600; f32 1000; (- f32 50)%f32;
      Float32.of_bits 13421773 (-26) ]
  = true.
Proof. reflexivity. Qed.

(* ------------------------------------------------------------------ *)
(** ** The two traces *)

Ltac run_M :=
  cbv [bind ret this engine modify emit modify_Super
       modify_CharacterMovement modify_AnimInstance
       GetActorLocation GetActorForwardVector GetOwner GetController
       GetSocketLocation GetDeltaSeconds GetUnitAxis SphereTraceSingle
       Super_Tick SetMovementMode StopMovementImmediately PlayAnimMontage
       Montage_Pause AddMovementInput AddControllerYawInput
       AddControllerPitchInput Jump StopJumping ResetOrientationAndPosition];
  cbn [fst snd app].

Lemma ForwardTrace_run (e : Engine) (c : AParkourGameCharacter) :
  ForwardTrace e c
  = (tt, with_wall (snd (forward_hit e c)) c,
     [Call_SphereTraceSingle (forward_query c)]).
Proof. reflexivity. Qed.

(** [HeightTrace] on a frame with a ledge in the band. *)
Lemma HeightTrace_ledge (e : Engine) (c : AParkourGameCharacter) :
  ledge_detected e c ->
  HeightTrace e c
  = (tt,
     state_of (SetMovementMode MOVE_Flying ;; StopMovementImmediately ;; Hang) e c,
     Call_SphereTraceSingle (height_query c) :: climb_calls c).
Proof.
  intros [Hhit Hband].
  apply InRange_in_band in Hband.
  unfold ledge_offset, height_hit in *.
  unfold HeightTrace. run_M. fold (height_query c).
  rewrite Hhit. run_M. rewrite Hband.
  reflexivity.
Qed.

(** [HeightTrace] on any other frame. *)
Lemma HeightTrace_no_ledge (e : Engine) (c : AParkourGameCharacter) :
  ~ ledge_detected e c ->
  HeightTrace e c = (tt, c, [Call_SphereTraceSingle (height_query c)]).
Proof.
  intros Hno.
  unfold ledge_detected, ledge_offset, height_hit in Hno.
  unfold HeightTrace. run_M. fold (height_query c).
  destruct (fst (engine_SphereTraceSingle e (height_query c) FHitResult_ForceInit))
    eqn:Hhit; [ | reflexivity ].
  run_M.
  match goal with
  | |- context [InRange_FloatFloat ?d ?lo ?hi true true] =>
      destruct (InRange_FloatFloat d lo hi true true) eqn:Hband
  end; [ | reflexivity ].
  apply InRange_in_band in Hband. elim Hno. split; [reflexivity | exact Hband].
Qed.

Lemma ledge_detected_dec (e : Engine) (c : AParkourGameCharacter) :
  ledge_detected e c \/ ~ ledge_detected e c.
Proof.
  unfold ledge_detected.
  destruct (fst (height_hit e c)).
  - destruct (InRange_FloatFloat (ledge_offset e c) (- f32 50)%f32 (f32 0) true true)
      eqn:Hband.
    + left. split; [reflexivity | now apply InRange_in_band].
    + right. intros [_ H]. apply InRange_in_band in H. congruence.
  - right. intros [H _]. discriminate.
Qed.

(** The pose the three calls of the inner branch leave behind. *)
Lemma climb_sequence_pose (e : Engine) (c : AParkourGameCharacter) :
  climbing_pose
    (state_of (SetMovementMode MOVE_Flying ;; StopMovementImmediately ;; Hang) e c).
Proof. unfold climbing_pose. repeat split. Qed.

(** A frame, call by call. *)
Lemma Tick_run (e : Engine) (dt : float) (c : AParkourGameCharacter) :
  Tick dt e c
  = (tt,
     state_of HeightTrace e (before_HeightTrace e dt c),
     Call_SphereTraceSingle (forward_query (after_Super_Tick e dt c))
       :: calls_of HeightTrace e (before_HeightTrace e dt c)).
Proof.
  unfold Tick, state_of, calls_of, before_HeightTrace.
  cbv [bind Super_Tick modify_Super modify engine]. cbn [fst snd app].
  fold (after_Super_Tick e dt c).
  rewrite ForwardTrace_run.
  destruct (HeightTrace e _) as [[[] c3] l3]. reflexivity.
Qed.

(** C1.  Whenever the downward trace of [HeightTrace] reports a hit and the
    hit point's Z minus the Z of the mesh's HipsSocket lies in the inclusive
    band [-50, 0], the character goes into the climbing pose: the movement
    mode is set to MOVE_Flying, movement is stopped immediately (the velocity
    is zero), the Climb montage is played at rate 1 and paused, and
    [m_isClimbing] is true.  The calls are made in that order, after the
    trace.  The same holds of the whole frame ([Tick]) in which [HeightTrace]
    meets such a character. *)
Theorem C1_ledge_in_band_enters_climbing_pose
    (e : Engine) (c : AParkourGameCharacter) :
  ledge_detected e c ->
  (climbing_pose (state_of HeightTrace e c)
   /\ calls_of HeightTrace e c
      = Call_SphereTraceSingle (height_query c) :: climb_calls c)
  /\ (forall dt c0,
        before_HeightTrace e dt c0 = c ->
        climbing_pose (state_of (Tick dt) e c0)
        /\ calls_of (Tick dt) e c0
           = Call_SphereTraceSingle (forward_query (after_Super_Tick e dt c0))
               :: Call_SphereTraceSingle (height_query c)
               :: climb_calls c0).
Proof.
  intros Hledge.
  assert (Hhere :
    climbing_pose (state_of HeightTrace e c)
    /\ calls_of HeightTrace e c
       = Call_SphereTraceSingle (height_query c) :: climb_calls c).
  { unfold state_of, calls_of. rewrite (HeightTrace_ledge e c Hledge).
    split; [ apply climb_sequence_pose | reflexivity ]. }
  split; [ exact Hhere | ].
  intros dt c0 Hc0. destruct Hhere as [Hpose Hcalls].
  unfold state_of at 1, calls_of at 1. rewrite Tick_run. cbn [fst snd].
  rewrite Hc0. split; [ exact Hpose | ].
  rewrite Hcalls. subst c. reflexivity.
Qed.

Lemma C1_witness :
  let dt := Float32.of_bits 1 (-6) in
  let c := before_HeightTrace Sample.ledge dt Sample.character in
  ledge_detected Sample.ledge c
  /\ climbing_pose (state_of HeightTrace Sample.ledge c)
  /\ climbing_pose (state_of (Tick dt) Sample.ledge Sample.character).
Proof.
  intros dt c.
  assert (H : ledge_detected Sample.ledge c).
  { split; [ reflexivity | split; left; vm_compute; reflexivity ]. }
  split; [ exact H | ].
  split.
  - exact (proj1 (proj1 (C1_ledge_in_band_enters_climbing_pose Sample.ledge c H))).
  - exact (proj1 (proj2 (C1_ledge_in_band_enters_climbing_pose Sample.ledge c H)
                    dt Sample.character eq_refl)).
Defined.

(** C2.  Every [Tick] casts exactly two sphere traces, in this order: the
    forward trace, from the actor location to 150 units along the actor's
    forward vector, then the downward trace, which starts 75 units along the
    forward vector from the actor location plus 500 units of Z and ends 500
    units of Z lower, with the same X and Y; both with radius 10.  The actor
    location and forward vector are the ones [Super::Tick] leaves. *)
Theorem C2_tick_casts_forward_then_downward_trace
    (e : Engine) (dt : float) (c : AParkourGameCharacter) :
  let c1 := after_Super_Tick e dt c in
  let loc := ActorLocation (Super c1) in
  let fwd := ActorForwardVector (Super c1) in
  let up := FVector.mk (f32 0) (f32 0) (f32 500) in
  exists forward down,
    traces_of (calls_of (Tick dt) e c) = [forward; down]
    /\ Start forward = loc
    /\ End_ forward = ((fwd * f32 150) + loc)%vec
    /\ Radius forward = f32 10
    /\ Start down = ((loc + (fwd * f32 75)) + up)%vec
    /\ End_ down = (Start down - up)%vec
    /\ FVector.X (End_ down) = FVector.X (Start down)
    /\ FVector.Y (End_ down) = FVector.Y (Start down)
    /\ FVector.Z (End_ down) = (FVector.Z (Start down) - f32 500)%f32
    /\ Radius down = f32 10.
Proof.
  intros c1 loc fwd up.
  exists (forward_query c1), (height_query c1).
  split.
  - unfold calls_of at 1. rewrite Tick_run. cbn [snd traces_of].
    f_equal.
    destruct (ledge_detected_dec e (before_HeightTrace e dt c)) as [H|H].
    + unfold calls_of. rewrite (HeightTrace_ledge _ _ H). reflexivity.
    + unfold calls_of. rewrite (HeightTrace_no_ledge _ _ H). reflexivity.
  - repeat split; try reflexivity.
    + cbn [height_query End_ Start FVector.sub FVector.X]. apply sub_zero.
    + cbn [height_query End_ Start FVector.sub FVector.Y]. apply sub_zero.
Qed.

(** C4.  Whenever the downward trace reports no hit, or reports a hit whose
    Z relative to the HipsSocket lies outside the inclusive band [-50, 0],
    [HeightTrace] leaves the character exactly as it found it — movement
    mode, velocity, [m_isClimbing] and animation state included — and its
    only call is the trace itself.  A frame in which [HeightTrace] meets
    such a character ends with the character as [HeightTrace] met it. *)
Theorem C4_no_ledge_leaves_character_unchanged
    (e : Engine) (c : AParkourGameCharacter) :
  fst (height_hit e c) = false \/ ~ in_band (ledge_offset e c) ->
  (state_of HeightTrace e c = c
   /\ MovementMode (CharacterMovement (Super (state_of HeightTrace e c)))
      = MovementMode (CharacterMovement (Super c))
   /\ Velocity (CharacterMovement (Super (state_of HeightTrace e c)))
      = Velocity (CharacterMovement (Super c))
   /\ m_isClimbing (state_of HeightTrace e c) = m_isClimbing c
   /\ animation_state (state_of HeightTrace e c) = animation_state c
   /\ calls_of HeightTrace e c = [Call_SphereTraceSingle (height_query c)])
  /\ (forall dt c0,
        before_HeightTrace e dt c0 = c -> state_of (Tick dt) e c0 = c).
Proof.
  intros Hno.
  assert (Hnot : ~ ledge_detected e c).
  { intros [Hhit Hband]. destruct Hno as [Hmiss | Hout];
      [ congruence | exact (Hout Hband) ]. }
  assert (Hsame : state_of HeightTrace e c = c).
  { unfold state_of. now rewrite (HeightTrace_no_ledge e c Hnot). }
  split.
  - rewrite Hsame. repeat split.
    unfold calls_of. now rewrite (HeightTrace_no_ledge e c Hnot).
  - intros dt c0 Hc0. unfold state_of at 1. rewrite Tick_run. cbn [fst snd].
    rewrite Hc0. exact Hsame.
Qed.

Lemma C4_witness :
  (fst (height_hit Sample.empty_world Sample.character) = false
   /\ state_of HeightTrace Sample.empty_world Sample.character
      = Sample.character)
  /\ (~ in_band (ledge_offset Sample.too_high Sample.character)
      /\ state_of HeightTrace Sample.too_high Sample.character
         = Sample.character).
Proof.
  split.
  - split; [ reflexivity | ].
    refine (proj1 (proj1 (C4_no_ledge_leaves_character_unchanged
                            Sample.empty_world Sample.character _))).
    left. reflexivity.
  - assert (H : ~ in_band (ledge_offset Sample.too_high Sample.character)).
    { intros [_ [H | H]]; vm_compute in H; discriminate H. }
    split; [ exact H | ].
    refine (proj1 (proj1 (C4_no_ledge_leaves_character_unchanged
                            Sample.too_high Sample.character _))).
    right. exact H.
Defined.

(* ------------------------------------------------------------------ *)
(** ** Sprinting and movement input *)

(** C5.  Sprinting toggles between two speed constants.  Pressing Sprint
    runs [StartSprint], which sets the movement component's [MaxWalkSpeed]
    to 1000.0; releasing Sprint runs [StopSprint], which sets it to 600.0.
    Neither changes anything else of the character, and neither calls the
    engine. *)
Theorem C5_sprint_toggles_MaxWalkSpeed
    (e : Engine) (c : AParkourGameCharacter) :
  let bindings := SetupPlayerInputComponent [] in
  let press := deliver bindings (Input_Action "Sprint" IE_Pressed) in
  let release := deliver bindings (Input_Action "Sprint" IE_Released) in
  (press e c = StartSprint e c /\ release e c = StopSprint e c)
  /\ (MaxWalkSpeed (CharacterMovement (Super (state_of StartSprint e c)))
        = f32 1000
      /\ MaxWalkSpeed (CharacterMovement (Super (state_of StopSprint e c)))
        = f32 600)
  /\ (same_but_MaxWalkSpeed c (state_of StartSprint e c)
      /\ same_but_MaxWalkSpeed c (state_of StopSprint e c))
  /\ (calls_of StartSprint e c = [] /\ calls_of StopSprint e c = []).
Proof.
  intros bindings press release.
  split; [ split; reflexivity | ].
  split; [ split; reflexivity | ].
  split; [ | split; reflexivity ].
  split; unfold same_but_MaxWalkSpeed, base_same_but_CharacterMovement,
           movement_same_but_MaxWalkSpeed; cbn; repeat split.
Qed.

Example sprint_press_then_release :
  MaxWalkSpeed
    (CharacterMovement
       (Super
          (run [ (Sample.empty_world, Op_Input (Input_Action "Sprint" IE_Pressed));
                 (Sample.empty_world, Op_Input (Input_Action "Sprint" IE_Released)) ]
               Sample.character)))
  = S754_finite false 9830400 (-14).
Proof. reflexivity. Qed.

Lemma MoveForward_adds (e : Engine) (c : AParkourGameCharacter)
    (Value : float) (ctl : AController) :
  Controller (Super c) = Some ctl ->
  (Value != f32 0)%f32 = true ->
  MoveForward Value e c = AddMovementInput (yaw_axis e ctl EAxis_X) Value e c.
Proof.
  intros Hctl Hval. unfold MoveForward, GetController.
  cbv [bind this ret]. cbn [fst snd app]. rewrite Hctl, Hval. reflexivity.
Qed.

Lemma MoveForward_idle (e : Engine) (c : AParkourGameCharacter)
    (Value : float) :
  Controller (Super c) = None \/ (Value == f32 0)%f32 = true ->
  MoveForward Value e c = (tt, c, []).
Proof.
  intros H. unfold MoveForward, GetController.
  cbv [bind this ret]. cbn [fst snd app].
  destruct (Controller (Super c)) as [ctl|]; [ | reflexivity ].
  destruct H as [H|H]; [ discriminate | ].
  rewrite neqb_eqb, H. reflexivity.
Qed.

Lemma MoveRight_adds (e : Engine) (c : AParkourGameCharacter)
    (Value : float) (ctl : AController) :
  Controller (Super c) = Some ctl ->
  (Value != f32 0)%f32 = true ->
  m_isClimbing c = false ->
  MoveRight Value e c = AddMovementInput (yaw_axis e ctl EAxis_Y) Value e c.
Proof.
  intros Hctl Hval Hclimb. unfold MoveRight, GetController.
  cbv [bind this ret]. cbn [fst snd app]. rewrite Hctl, Hval, Hclimb.
  reflexivity.
Qed.

Lemma MoveRight_idle (e : Engine) (c : AParkourGameCharacter)
    (Value : float) :
  Controller (Super c) = None \/ (Value == f32 0)%f32 = true
  \/ m_isClimbing c = true ->
  MoveRight Value e c = (tt, c, []).
Proof.
  intros H. unfold MoveRight, GetController.
  cbv [bind this ret]. cbn [fst snd app].
  destruct (Controller (Super c)) as [ctl|]; [ | reflexivity ].
  destruct H as [H|[H|H]]; [ discriminate | | ].
  - rewrite neqb_eqb, H. reflexivity.
  - rewrite H. rewrite andb_false_r. reflexivity.
Qed.

(** C6.  Movement is relative to the controller's yaw only.  With a non-null
    controller and a non-zero axis value, [MoveForward] adds exactly one
    movement input: the unit X axis of the rotation with pitch 0, the control
    rotation's yaw and roll 0, scaled by the axis value; [MoveRight] does the
    same with the unit Y axis, provided [m_isClimbing] is false.  With a null
    controller or a zero value, neither adds any movement input, and the
    character is unchanged. *)
Theorem C6_movement_follows_controller_yaw
    (e : Engine) (c : AParkourGameCharacter) (Value : float) :
  (forall ctl,
     Controller (Super c) = Some ctl ->
     (Value != f32 0)%f32 = true ->
     (calls_of (MoveForward Value) e c
        = [Call_AddMovementInput (yaw_axis e ctl EAxis_X) Value]
      /\ pending_input (state_of (MoveForward Value) e c)
         = (pending_input c + yaw_axis e ctl EAxis_X * Value)%vec)
     /\ (m_isClimbing c = false ->
         calls_of (MoveRight Value) e c
           = [Call_AddMovementInput (yaw_axis e ctl EAxis_Y) Value]
         /\ pending_input (state_of (MoveRight Value) e c)
            = (pending_input c + yaw_axis e ctl EAxis_Y * Value)%vec))
  /\ (Controller (Super c) = None \/ (Value == f32 0)%f32 = true ->
      (calls_of (MoveForward Value) e c = []
       /\ state_of (MoveForward Value) e c = c)
      /\ (calls_of (MoveRight Value) e c = []
          /\ state_of (MoveRight Value) e c = c)).
Proof.
  split.
  - intros ctl Hctl Hval. split.
    + unfold calls_of, state_of. rewrite (MoveForward_adds e c Value ctl Hctl Hval).
      split; reflexivity.
    + intros Hclimb. unfold calls_of, state_of.
      rewrite (MoveRight_adds e c Value ctl Hctl Hval Hclimb).
      split; reflexivity.
  - intros H. unfold calls_of, state_of.
    rewrite (MoveForward_idle e c Value H).
    rewrite (MoveRight_idle e c Value).
    + repeat split.
    + destruct H as [H|H]; auto.
Qed.

Lemma C6_witness :
  let ctl := mkController (mkFRotator (f32 10) (f32 90) (f32 5)) in
  let yaw_only := mkFRotator (f32 0) (f32 90) (f32 0) in
  (calls_of (MoveForward (f32 1)) Sample.empty_world Sample.character
     = [Call_AddMovementInput (Sample.unit_axis yaw_only EAxis_X) (f32 1)]
   /\ calls_of (MoveRight (f32 1)) Sample.empty_world Sample.character
     = [Call_AddMovementInput (Sample.unit_axis yaw_only EAxis_Y) (f32 1)])
  /\ (calls_of (MoveForward (f32 1)) Sample.empty_world Sample.unpossessed = []
      /\ calls_of (MoveRight (f32 0)) Sample.empty_world Sample.character = []).
Proof.
  intros ctl yaw_only.
  pose proof (C6_movement_follows_controller_yaw
                Sample.empty_world Sample.character (f32 1)) as [Hadd _].
  specialize (Hadd ctl eq_refl eq_refl) as [[Hf _] Hr].
  specialize (Hr eq_refl) as [Hr _].
  pose proof (C6_movement_follows_controller_yaw
                Sample.empty_world Sample.unpossessed (f32 1)) as [_ Hnull].
  specialize (Hnull (or_introl eq_refl)) as [[Hn _] _].
  pose proof (C6_movement_follows_controller_yaw
                Sample.empty_world Sample.character (f32 0)) as [_ Hzero].
  specialize (Hzero (or_intror eq_refl)) as [_ [Hz _]].
  exact (conj (conj Hf Hr) (conj Hn Hz)).
Defined.

(** C8.  While [m_isClimbing] is true, [MoveRight] ignores its input: for
    every axis value it adds no movement input and leaves the character
    unchanged.  [MoveForward] does not look at the flag: for every non-zero
    value and non-null controller it still adds its movement input. *)
Theorem C8_climbing_gates_MoveRight_only
    (e : Engine) (c : AParkourGameCharacter) (Value : float) :
  m_isClimbing c = true ->
  (calls_of (MoveRight Value) e c = []
   /\ state_of (MoveRight Value) e c = c)
  /\ (forall ctl,
        Controller (Super c) = Some ctl ->
        (Value != f32 0)%f32 = true ->
        movement_inputs_of (calls_of (MoveForward Value) e c)
          = [(yaw_axis e ctl EAxis_X, Value)]
        /\ pending_input (state_of (MoveForward Value) e c)
           = (pending_input c + yaw_axis e ctl EAxis_X * Value)%vec).
Proof.
  intros Hclimb. split.
  - unfold calls_of, state_of. rewrite (MoveRight_idle e c Value); auto.
  - intros ctl Hctl Hval. unfold calls_of, state_of.
    rewrite (MoveForward_adds e c Value ctl Hctl Hval). split; reflexivity.
Qed.

Lemma C8_witness :
  m_isClimbing Sample.climber = true
  /\ calls_of (MoveRight (f32 1)) Sample.empty_world Sample.climber = []
  /\ movement_inputs_of
       (calls_of (MoveForward (f32 1)) Sample.empty_world Sample.climber)
     = [(Sample.vec 0 1 0, f32 1)].
Proof.
  pose proof (C8_climbing_gates_MoveRight_only
                Sample.empty_world Sample.climber (f32 1) eq_refl)
    as [[Hr _] Hf].
  specialize (Hf (mkController (mkFRotator (f32 10) (f32 90) (f32 5)))
                 eq_refl eq_refl) as [Hf _].
  exact (conj eq_refl (conj Hr Hf)).
Defined.

(* ------------------------------------------------------------------ *)
(** ** The wall members *)

(** C7.  [ForwardTrace] overwrites [m_wallNormal] and [m_wallLocation] with
    the hit result's Normal and Location whatever the trace returned: the
    returned boolean plays no part (two engines that leave the same hit
    behind leave the same character behind), and nothing else of the
    character changes.  In particular, on a frame where the forward trace
    misses and the engine leaves the force-initialised hit's zero normal and
    location in place, both members become the zero vector, whatever they
    held before. *)
Theorem C7_ForwardTrace_overwrites_wall_members
    (e : Engine) (c : AParkourGameCharacter) :
  (m_wallNormal (state_of ForwardTrace e c) = Normal (snd (forward_hit e c))
   /\ m_wallLocation (state_of ForwardTrace e c)
      = Location (snd (forward_hit e c))
   /\ same_but_wall c (state_of ForwardTrace e c))
  /\ (forall e',
        snd (forward_hit e' c) = snd (forward_hit e c) ->
        state_of ForwardTrace e' c = state_of ForwardTrace e c)
  /\ (fst (forward_hit e c) = false ->
      miss_leaves_ForceInit e (forward_query c) ->
      m_wallNormal (state_of ForwardTrace e c) = FVector.ZeroVector
      /\ m_wallLocation (state_of ForwardTrace e c) = FVector.ZeroVector).
Proof.
  unfold state_of. rewrite ForwardTrace_run. cbn [fst snd].
  split; [ | split ].
  - unfold same_but_wall. repeat split.
  - intros e' Heq. rewrite ForwardTrace_run. cbn [fst snd]. now rewrite Heq.
  - intros Hmiss Hengine. destruct (Hengine Hmiss) as [Hn Hl].
    split; [ exact Hn | exact Hl ].
Qed.

Lemma C7_witness :
  m_wallNormal Sample.character = Sample.vec 0 1 0
  /\ m_wallLocation Sample.character = Sample.vec 7 8 9
  /\ fst (forward_hit Sample.empty_world Sample.character) = false
  /\ m_wallNormal (state_of ForwardTrace Sample.empty_world Sample.character)
     = FVector.ZeroVector
  /\ m_wallLocation (state_of ForwardTrace Sample.empty_world Sample.character)
     = FVector.ZeroVector.
Proof.
  pose proof (C7_ForwardTrace_overwrites_wall_members
                Sample.empty_world Sample.character) as [_ [_ Hmiss]].
  specialize (Hmiss eq_refl (fun _ => conj eq_refl eq_refl)) as [Hn Hl].
  exact (conj eq_refl (conj eq_refl (conj eq_refl (conj Hn Hl)))).
Defined.

Example ForwardTrace_hit_is_stored :
  m_wallNormal (state_of ForwardTrace (Sample.surface_at 80) Sample.character)
    = Sample.vec 0 0 1
  /\ FVector.Z
       (m_wallLocation
          (state_of ForwardTrace (Sample.surface_at 80) Sample.character))
     = f32 80.
Proof. split; reflexivity. Qed.

(* ------------------------------------------------------------------ *)
(** ** The climbing flag *)

Lemma bind_run {A B} (m : M A) (k : A -> M B)
    (e : Engine) (c : AParkourGameCharacter) :
  state_of (bind m k) e c = state_of (k (value_of m e c)) e (state_of m e c)
  /\ calls_of (bind m k) e c
     = calls_of m e c ++ calls_of (k (value_of m e c)) e (state_of m e c).
Proof.
  unfold state_of, calls_of, value_of, bind.
  destruct (m e c) as [[a c1] l1]. cbn [fst snd].
  destruct (k a e c1) as [[b c2] l2]. split; reflexivity.
Qed.

Lemma movement_modes_of_app (l1 l2 : list EngineCall) :
  movement_modes_of (l1 ++ l2)
  = movement_modes_of l1 ++ movement_modes_of l2.
Proof.
  induction l1 as [|call l1 IH]; [ reflexivity | ].
  destruct call; cbn [app movement_modes_of]; rewrite ?IH; reflexivity.
Qed.

Lemma quiet_ret : quiet (ret tt).
Proof. intros e c. split; reflexivity. Qed.

Lemma quiet_seq (m1 m2 : M unit) : quiet m1 -> quiet m2 -> quiet (m1 ;; m2).
Proof.
  intros H1 H2 e c.
  destruct (bind_run m1 (fun _ => m2) e c) as [Hs Hc].
  rewrite Hs, Hc, movement_modes_of_app.
  destruct (H1 e c) as [H1s H1c].
  destruct (H2 e (state_of m1 e c)) as [H2s H2c].
  rewrite H2s, H1s, H1c, H2c. split; reflexivity.
Qed.

Ltac quiet_by_cases :=
  intros e c; unfold state_of, calls_of;
  cbv [MoveForward MoveRight TurnAtRate LookUpAtRate TouchStarted
       TouchStopped OnResetVR StartSprint StopSprint];
  run_M;
  repeat match goal with
         | |- context [match ?x with Some _ => _ | None => _ end] =>
             destruct x; run_M
         | |- context [if ?b then _ else _] => destruct b; run_M
         end;
  split; reflexivity.

Lemma quiet_call_action (h : ActionHandler) : quiet (call_action h).
Proof. destruct h; quiet_by_cases. Qed.

Lemma quiet_call_axis (h : AxisHandler) (Value : float) :
  quiet (call_axis h Value).
Proof. destruct h; cbn [call_axis]; quiet_by_cases. Qed.

Lemma quiet_call_touch (h : TouchHandler) (i : ETouchIndex) (l : FVector) :
  quiet (call_touch h i l).
Proof. destruct h; quiet_by_cases. Qed.

Lemma quiet_fire (i : InputEvent) (b : Binding) : quiet (fire i b).
Proof.
  destruct i, b; cbn [fire]; try apply quiet_ret;
    match goal with
    | |- quiet (if ?t then _ else _) => destruct t
    end;
    auto using quiet_ret, quiet_call_action, quiet_call_axis, quiet_call_touch.
Qed.

Lemma quiet_deliver (bindings : list Binding) (i : InputEvent) :
  quiet (deliver bindings i).
Proof.
  induction bindings as [|b rest IH]; cbn [deliver].
  - apply quiet_ret.
  - apply quiet_seq; [ apply quiet_fire | exact IH ].
Qed.

Lemma quiet_ForwardTrace : quiet ForwardTrace.
Proof.
  intros e c. unfold state_of, calls_of. rewrite ForwardTrace_run.
  split; reflexivity.
Qed.

(** Every operation whose body does not reach [Hang] is quiet. *)
Lemma quiet_exec (op : Op) : reaches_Hang op = false -> quiet (exec op).
Proof.
  destruct op; cbn [reaches_Hang exec]; intros H; try discriminate H;
    first [ apply quiet_ForwardTrace | apply quiet_deliver | quiet_by_cases ].
Qed.

Lemma quiet_one_way (m : M unit) : quiet m -> one_way m.
Proof.
  intros H e c. destruct (H e c) as [Hs Hc]. split.
  - right. exact Hs.
  - rewrite Hc. intros mode [].
Qed.

Lemma one_way_Hang : one_way Hang.
Proof.
  intros e c. split; [ left; reflexivity | ].
  intros mode [].
Qed.

Lemma one_way_HeightTrace : one_way HeightTrace.
Proof.
  intros e c. unfold state_of, calls_of.
  destruct (ledge_detected_dec e c) as [H|H].
  - rewrite (HeightTrace_ledge e c H). cbn [fst snd]. split.
    + left. reflexivity.
    + cbn [movement_modes_of climb_calls]. intros mode [Hm|[]].
      now symmetry.
  - rewrite (HeightTrace_no_ledge e c H). cbn [fst snd]. split.
    + right. reflexivity.
    + intros mode [].
Qed.

Lemma one_way_Tick (dt : float) : one_way (Tick dt).
Proof.
  intros e c. unfold state_of at 1 2, calls_of at 1. rewrite Tick_run.
  cbn [fst snd movement_modes_of].
  destruct (one_way_HeightTrace e (before_HeightTrace e dt c)) as [Hs Hc].
  split; [ | exact Hc ].
  destruct Hs as [Hs|Hs]; [ left; exact Hs | right; rewrite Hs; reflexivity ].
Qed.

Lemma one_way_exec (op : Op) : one_way (exec op).
Proof.
  destruct (reaches_Hang op) eqn:Hop.
  - destruct op; try discriminate Hop; cbn [exec].
    + apply one_way_Tick.
    + apply one_way_Hang.
    + apply one_way_HeightTrace.
  - apply quiet_one_way, quiet_exec, Hop.
Qed.

(** Once set, the flag survives every run. *)
Lemma run_keeps_flag (ops : list (Engine * Op)) (c : AParkourGameCharacter) :
  m_isClimbing c = true -> m_isClimbing (run ops c) = true.
Proof.
  revert c. induction ops as [|[e op] rest IH]; intros c Hc; [ exact Hc | ].
  cbn [run]. apply IH.
  destruct (one_way_exec op e c) as [[H|H] _]; congruence.
Qed.

(** No run ever requests a movement mode other than [MOVE_Flying]. *)
Lemma run_requests_only_flying (ops : list (Engine * Op))
    (c : AParkourGameCharacter) (mode : EMovementMode) :
  In mode (movement_modes_of (run_calls ops c)) -> mode = MOVE_Flying.
Proof.
  revert c. induction ops as [|[e op] rest IH]; intros c; cbn [run_calls].
  - intros [].
  - rewrite movement_modes_of_app, in_app_iff. intros [H|H].
    + exact (proj2 (one_way_exec op e c) mode H).
    + exact (IH _ H).
Qed.

Lemma run_app (ops1 ops2 : list (Engine * Op)) (c : AParkourGameCharacter) :
  run (ops1 ++ ops2) c = run ops2 (run ops1 c).
Proof.
  revert c. induction ops1 as [|[e op] rest IH]; intros c; [ reflexivity | ].
  cbn [app run]. apply IH.
Qed.

(** A frame whose downward trace finds a ledge in the band raises the
    flag. *)
Lemma frame_with_ledge_raises_flag (e : Engine) (dt : float)
    (c : AParkourGameCharacter) :
  ledge_detected e (before_HeightTrace e dt c) ->
  m_isClimbing (run (frames [(e, dt)]) c) = true.
Proof.
  intros H. cbn [frames map run fst snd exec].
  unfold state_of. rewrite Tick_run. cbn [fst snd].
  unfold state_of. rewrite (HeightTrace_ledge _ _ H). reflexivity.
Qed.

Lemma obliging_frame_has_ledge (dt : float) (c : AParkourGameCharacter) :
  ledge_detected Sample.obliging (before_HeightTrace Sample.obliging dt c).
Proof.
  split; [ reflexivity | ].
  split; [ left | right ]; vm_compute; reflexivity.
Qed.

(** C9.  The climbing flag is absorbing.  The constructor leaves
    [m_isClimbing] false; [Hang] sets it to true; an operation whose body
    does not reach [Hang] leaves it as it was; no operation turns a true flag
    into a false one.  Hence along every sequence of operations, once
    [m_isClimbing] is true it is true ever after. *)
Theorem C9_climbing_flag_is_absorbing :
  (forall base climb n0 l0,
     m_isClimbing (AParkourGameCharacter_ctor base climb n0 l0) = false)
  /\ (forall e c, m_isClimbing (state_of Hang e c) = true)
  /\ (forall op e c,
        reaches_Hang op = false ->
        m_isClimbing (state_of (exec op) e c) = m_isClimbing c)
  /\ (forall op e c,
        m_isClimbing c = true ->
        m_isClimbing (state_of (exec op) e c) = true)
  /\ (forall ops1 ops2 c,
        m_isClimbing (run ops1 c) = true ->
        m_isClimbing (run (ops1 ++ ops2) c) = true).
Proof.
  split; [ reflexivity | ].
  split; [ reflexivity | ].
  split; [ | split ].
  - intros op e c Hop. exact (proj1 (quiet_exec op Hop e c)).
  - intros op e c Hc.
    destruct (one_way_exec op e c) as [[H|H] _]; congruence.
  - intros ops1 ops2 c H. rewrite run_app. now apply run_keeps_flag.
Qed.

Lemma C9_witness :
  let dt := Float32.of_bits 1 (-6) in
  let enter := [(Sample.ledge, Op_Tick dt)] in
  let later :=
    [ (Sample.empty_world, Op_MoveRight (f32 1));
      (Sample.empty_world, Op_StopSprint);
      (Sample.too_high, Op_Tick dt);
      (Sample.empty_world, Op_Input (Input_Action "Jump" IE_Pressed));
      (Sample.empty_world, Op_Tick dt) ] in
  m_isClimbing Sample.character = false
  /\ m_isClimbing (run enter Sample.character) = true
  /\ m_isClimbing (run (enter ++ later) Sample.character) = true
  /\ m_isClimbing
       (state_of (exec (Op_MoveForward (f32 1))) Sample.empty_world
          Sample.character)
     = false.
Proof.
  intros dt enter later.
  destruct C9_climbing_flag_is_absorbing as [_ [_ [Hquiet [_ Hrun]]]].
  split; [ reflexivity | ].
  split; [ reflexivity | ].
  split.
  - exact (Hrun enter later Sample.character eq_refl).
  - exact (Hquiet (Op_MoveForward (f32 1)) Sample.empty_world
             Sample.character eq_refl).
Defined.

(* ------------------------------------------------------------------ *)
(** ** The mode switch *)

(** C3, as stated.  Reading the mode switch as going both ways fails on the
    code: the sample character, one frame after a ledge came into reach, is
    a reachable state from which no sequence of frames leads back to
    locomotion. *)
Lemma C3_counterexample :
  Reachable Sample.hanging
  /\ m_isClimbing Sample.hanging = true
  /\ ~ can_return_to_locomotion Sample.hanging
  /\ ~ two_way_switch.
Proof.
  assert (Hreach : Reachable Sample.hanging).
  { exists Sample.base, "Climb_Montage"%string,
      (Sample.vec 0 1 0), (Sample.vec 7 8 9),
      (frames [(Sample.ledge, Float32.of_bits 1 (-6))]).
    reflexivity. }
  assert (Hstuck : ~ can_return_to_locomotion Sample.hanging).
  { intros [fs Hfs].
    rewrite (run_keeps_flag (frames fs) Sample.hanging eq_refl) in Hfs.
    discriminate Hfs. }
  split; [ exact Hreach | ].
  split; [ reflexivity | ].
  split; [ exact Hstuck | ].
  intros Hboth. exact (Hstuck (proj2 (Hboth _ Hreach))).
Qed.

(** C3 (amended).  The per-frame trace results drive a one-way switch from
    locomotion to climbing.  From every state the climbing state can be
    entered by a sequence of frames; a frame whose downward trace hits in
    the band enters it; once [m_isClimbing] is true, no sequence of frames
    leads back to locomotion; and no run of the class ever requests a
    movement mode other than MOVE_Flying. *)
Theorem C3_mode_switch_is_one_way :
  (forall s, can_enter_climbing s)
  /\ (forall e dt c,
        ledge_detected e (before_HeightTrace e dt c) ->
        m_isClimbing (run (frames [(e, dt)]) c) = true)
  /\ (forall s, m_isClimbing s = true -> ~ can_return_to_locomotion s)
  /\ (forall ops c mode,
        In mode (movement_modes_of (run_calls ops c)) -> mode = MOVE_Flying).
Proof.
  split; [ | split; [ | split ] ].
  - intros s. exists [(Sample.obliging, f32 0)].
    apply frame_with_ledge_raises_flag, obliging_frame_has_ledge.
  - exact frame_with_ledge_raises_flag.
  - intros s Hs [fs Hfs].
    rewrite (run_keeps_flag (frames fs) s Hs) in Hfs. discriminate Hfs.
  - exact run_requests_only_flying.
Qed.

Lemma C3_witness :
  let dt := Float32.of_bits 1 (-6) in
  m_isClimbing Sample.character = false
  /\ m_isClimbing (run (frames [(Sample.ledge, dt)]) Sample.character) = true
  /\ ~ can_return_to_locomotion Sample.hanging
  /\ In MOVE_Flying
       (movement_modes_of
          (run_calls (frames [(Sample.ledge, dt)]) Sample.character))
  /\ MOVE_Flying = MOVE_Flying.
Proof.
  intros dt.
  destruct C3_mode_switch_is_one_way as [_ [Henter [Hstay Hmodes]]].
  split; [ reflexivity | ].
  split.
  - apply Henter.
    split; [ reflexivity | split; left; vm_compute; reflexivity ].
  - split; [ exact (Hstay Sample.hanging eq_refl) | ].
    split; [ left; reflexivity | ].
    exact (Hmodes (frames [(Sample.ledge, dt)]) Sample.character MOVE_Flying
             (or_introl eq_refl)).
Defined.

(* ------------------------------------------------------------------ *)
(** ** Input delivery *)

Lemma bind_ret_l (m : M unit) (e : Engine) (c : AParkourGameCharacter) :
  (ret tt ;; m) e c = m e c.
Proof.
  unfold bind, ret. destruct (m e c) as [[b c2] l2]. reflexivity.
Qed.

Lemma bind_ret_r (m : M unit) (e : Engine) (c : AParkourGameCharacter) :
  (forall e' c', m e' c' = (tt, c', [])) ->
  forall k : M unit, (k ;; m) e c = k e c.
Proof.
  intros Hm k. unfold bind. destruct (k e c) as [[[] c1] l1].
  rewrite Hm, app_nil_r. reflexivity.
Qed.

(** A binding the input does not match is passed over. *)
Lemma deliver_skip (i : InputEvent) (b : Binding) (rest : list Binding)
    (e : Engine) (c : AParkourGameCharacter) :
  fire i b = ret tt ->
  deliver (b :: rest) i e c = deliver rest i e c.
Proof. intros H. cbn [deliver]. rewrite H. apply bind_ret_l. Qed.

(** A binding after which nothing else matches decides the delivery. *)
Lemma deliver_last_match (i : InputEvent) (b : Binding)
    (rest : list Binding) (e : Engine) (c : AParkourGameCharacter) :
  (forall e' c', deliver rest i e' c' = (tt, c', [])) ->
  deliver (b :: rest) i e c = fire i b e c.
Proof. intros H. cbn [deliver]. now apply bind_ret_r. Qed.

Ltac deliver_to_handler :=
  intros; cbn [SetupPlayerInputComponent app];
  repeat (rewrite deliver_skip by reflexivity);
  rewrite deliver_last_match by (intros; reflexivity);
  reflexivity.


(** X1.  Every input that [SetupPlayerInputComponent] binds runs exactly the
    member function bound to it, once, and nothing else: the two Jump and
    the two Sprint events, ResetVR pressed, the six axes (Turn and LookUp
    pass the value straight to the controller, TurnRate and LookUpRate go
    through the rate functions), and the two touch events, whatever the
    finger and the location. *)
Theorem X1_bound_input_runs_its_handler
    (e : Engine) (c : AParkourGameCharacter)
    (Value : float) (FingerIndex : ETouchIndex) (Loc : FVector) :
  let input := deliver (SetupPlayerInputComponent []) in
  (input (Input_Action "Jump" IE_Pressed) e c = Jump e c
   /\ input (Input_Action "Jump" IE_Released) e c = StopJumping e c
   /\ input (Input_Action "ResetVR" IE_Pressed) e c = OnResetVR e c
   /\ input (Input_Action "Sprint" IE_Pressed) e c = StartSprint e c
   /\ input (Input_Action "Sprint" IE_Released) e c = StopSprint e c)
  /\ (input (Input_Axis "MoveForward" Value) e c = MoveForward Value e c
      /\ input (Input_Axis "MoveRight" Value) e c = MoveRight Value e c
      /\ input (Input_Axis "Turn" Value) e c = AddControllerYawInput Value e c
      /\ input (Input_Axis "TurnRate" Value) e c = TurnAtRate Value e c
      /\ input (Input_Axis "LookUp" Value) e c
         = AddControllerPitchInput Value e c
      /\ input (Input_Axis "LookUpRate" Value) e c = LookUpAtRate Value e c)
  /\ (input (Input_Touch IE_Pressed FingerIndex Loc) e c = Jump e c
      /\ input (Input_Touch IE_Released FingerIndex Loc) e c
         = StopJumping e c).
Proof.
  intros input. unfold input.
  repeat split; deliver_to_handler.
Qed.






(* ------------------------------------------------------------------ *)
(** ** Edge values *)

Lemma mul_nan_r (x : float) : (x * S754_nan)%f32 = S754_nan.
Proof. destruct x; reflexivity. Qed.

Lemma add_nan_r (x : float) : (x + S754_nan)%f32 = S754_nan.
Proof. destruct x; reflexivity. Qed.

Lemma sub_nan_l (x : float) : (S754_nan - x)%f32 = S754_nan.
Proof. reflexivity. Qed.

Lemma sub_nan_r (x : float) : (x - S754_nan)%f32 = S754_nan.
Proof. destruct x; reflexivity. Qed.

(** A zero or finite float minus itself is the positive zero. *)
Lemma sub_self (x : float) :
  is_finite x = true -> (x - x)%f32 = S754_zero false.
Proof.
  destruct x as [[]|s| |s m e]; cbn [is_finite]; intros H;
    try discriminate H; try reflexivity.
  unfold Float32.sub, SFsub. rewrite Z.sub_diag. reflexivity.
Qed.

Lemma scale_nan (d : FVector) : (d * S754_nan)%vec = nan_vector.
Proof. unfold FVector.scale, nan_vector. now rewrite !mul_nan_r. Qed.

Lemma add_nan_vector (p : FVector) : (p + nan_vector)%vec = nan_vector.
Proof.
  unfold FVector.add, nan_vector. cbn [FVector.X FVector.Y FVector.Z].
  now rewrite !add_nan_r.
Qed.

(** X3.  The zero test of the movement handlers lets a NaN through and stops
    a negative zero.  With a controller, [MoveForward] of a NaN axis value
    adds an input and turns every component of the pending input vector into
    NaN, whatever the vector and the direction were, and so does [MoveRight]
    when not climbing; a negative zero, like the positive one, adds
    nothing. *)
Theorem X3_nan_axis_value_passes_zero_test
    (e : Engine) (c : AParkourGameCharacter) (ctl : AController) :
  Controller (Super c) = Some ctl ->
  (calls_of (MoveForward S754_nan) e c
     = [Call_AddMovementInput (yaw_axis e ctl EAxis_X) S754_nan]
   /\ pending_input (state_of (MoveForward S754_nan) e c) = nan_vector)
  /\ (m_isClimbing c = false ->
      calls_of (MoveRight S754_nan) e c
        = [Call_AddMovementInput (yaw_axis e ctl EAxis_Y) S754_nan]
      /\ pending_input (state_of (MoveRight S754_nan) e c) = nan_vector)
  /\ (MoveForward (S754_zero true) e c = (tt, c, [])
      /\ MoveRight (S754_zero true) e c = (tt, c, [])).
Proof.
  intros Hctl. split; [ | split ].
  - unfold calls_of, state_of.
    rewrite (MoveForward_adds e c S754_nan ctl Hctl nan_neq_zero).
    split; [ reflexivity | ].
    unfold AddMovementInput. run_M. unfold pending_input.
    cbn [Super set_Super ControlInputVector set_ControlInputVector].
    now rewrite scale_nan, add_nan_vector.
  - intros Hclimb. unfold calls_of, state_of.
    rewrite (MoveRight_adds e c S754_nan ctl Hctl nan_neq_zero Hclimb).
    split; [ reflexivity | ].
    unfold AddMovementInput. run_M. unfold pending_input.
    cbn [Super set_Super ControlInputVector set_ControlInputVector].
    now rewrite scale_nan, add_nan_vector.
  - split.
    + apply MoveForward_idle. right. reflexivity.
    + apply MoveRight_idle. right. left. reflexivity.
Qed.

Lemma X3_witness :
  pending_input Sample.character = Sample.vec 0 0 0
  /\ pending_input
       (state_of (MoveForward S754_nan) Sample.empty_world Sample.character)
     = nan_vector
  /\ MoveRight (S754_zero true) Sample.empty_world Sample.character
     = (tt, Sample.character, []).
Proof.
  destruct (X3_nan_axis_value_passes_zero_test
              Sample.empty_world Sample.character
              (mkController (mkFRotator (f32 10) (f32 90) (f32 5))) eq_refl)
    as [[_ Hnan] [_ [_ Hzero]]].
  exact (conj eq_refl (conj Hnan Hzero)).
Defined.

(** X4.  Releasing Sprint does not restore the speed the character had
    before sprinting: the later of the two operations decides, so after a
    press and a release the walk speed is 600 whatever it was, and the
    character is back as it started exactly when its walk speed was 600 to
    begin with. *)
Theorem X4_sprint_release_stores_600
    (e : Engine) (c : AParkourGameCharacter) :
  let sprinted := state_of StopSprint e (state_of StartSprint e c) in
  sprinted = state_of StopSprint e c
  /\ state_of StartSprint e (state_of StopSprint e c) = state_of StartSprint e c
  /\ MaxWalkSpeed (CharacterMovement (Super sprinted)) = f32 600
  /\ (sprinted = c <-> MaxWalkSpeed (CharacterMovement (Super c)) = f32 600).
Proof.
  intros sprinted.
  split; [ reflexivity | ].
  split; [ reflexivity | ].
  split; [ reflexivity | ].
  split.
  - intros H. rewrite <- H at 1. reflexivity.
  - intros H. unfold sprinted.
    destruct c as [[o al af ct [mm v mws b r j a] me ca ci pj p y rr]
                     cb fc bt bl cl wn wl ic].
    cbn in H. subst mws. reflexivity.
Qed.

Example sprint_forgets_previous_speed :
  let slow :=
    state_of (modify_CharacterMovement (set_MaxWalkSpeed (f32 450)))
      Sample.empty_world Sample.character in
  MaxWalkSpeed (CharacterMovement (Super slow)) = f32 450
  /\ MaxWalkSpeed
       (CharacterMovement
          (Super
             (run [ (Sample.empty_world, Op_StartSprint);
                    (Sample.empty_world, Op_StopSprint) ] slow)))
     = f32 600.
Proof. split; reflexivity. Qed.

Lemma X4_witness :
  MaxWalkSpeed (CharacterMovement (Super Sample.character)) = f32 600
  /\ state_of StopSprint Sample.empty_world
       (state_of StartSprint Sample.empty_world Sample.character)
     = Sample.character.
Proof.
  destruct (X4_sprint_release_stores_600 Sample.empty_world Sample.character)
    as [_ [_ [_ [_ Hback]]]].
  exact (conj eq_refl (Hback eq_refl)).
Defined.

(* ------------------------------------------------------------------ *)
(** ** The ledge detector, further *)

(** The state the climb branch leaves depends on the character only through
    what the branch does not write; running the branch on it again changes
    nothing. *)
Lemma climb_sequence_idempotent (e : Engine) (c : AParkourGameCharacter) :
  let climb := SetMovementMode MOVE_Flying ;; StopMovementImmediately ;; Hang in
  state_of climb e (state_of climb e c) = state_of climb e c.
Proof. reflexivity. Qed.

Lemma ledge_detected_after_climb (e : Engine) (c : AParkourGameCharacter) :
  ledge_detected e c ->
  ledge_detected e
    (state_of (SetMovementMode MOVE_Flying ;; StopMovementImmediately ;; Hang) e c).
Proof. intros H. exact H. Qed.

(** X5.  [HeightTrace] is idempotent: run a second time against the same
    engine it issues the same calls as the first time and leaves the
    character as the first run left it.  A character hanging on a ledge that
    is still in the band is therefore put into the same pose again, frame
    after frame, the montage started and paused anew. *)
Theorem X5_HeightTrace_is_idempotent
    (e : Engine) (c : AParkourGameCharacter) :
  state_of HeightTrace e (state_of HeightTrace e c) = state_of HeightTrace e c
  /\ calls_of HeightTrace e (state_of HeightTrace e c)
     = calls_of HeightTrace e c.
Proof.
  destruct (ledge_detected_dec e c) as [H|H].
  - pose proof (ledge_detected_after_climb e c H) as H'.
    assert (Hs : state_of HeightTrace e c
                 = state_of (SetMovementMode MOVE_Flying ;;
                             StopMovementImmediately ;; Hang) e c).
    { unfold state_of at 1. now rewrite (HeightTrace_ledge e c H). }
    assert (Hc : calls_of HeightTrace e c
                 = Call_SphereTraceSingle (height_query c) :: climb_calls c).
    { unfold calls_of. now rewrite (HeightTrace_ledge e c H). }
    rewrite Hs, Hc. split.
    + unfold state_of at 1. rewrite (HeightTrace_ledge e _ H').
      reflexivity.
    + unfold calls_of. rewrite (HeightTrace_ledge e _ H'). reflexivity.
  - assert (Hs : state_of HeightTrace e c = c).
    { unfold state_of. now rewrite (HeightTrace_no_ledge e c H). }
    rewrite Hs. split; [ exact Hs | reflexivity ].
Qed.

Lemma in_band_representation (d : float) :
  in_band d <-> band_representation d.
Proof. apply in_band_spec. Qed.

(** [HeightTrace] raises the flag exactly when it finds a ledge. *)
Lemma HeightTrace_flag (e : Engine) (c : AParkourGameCharacter) :
  m_isClimbing (state_of HeightTrace e c) = true
  <-> m_isClimbing c = true \/ ledge_detected e c.
Proof.
  unfold state_of. destruct (ledge_detected_dec e c) as [H|H].
  - rewrite (HeightTrace_ledge e c H). cbn [fst snd]. split; auto.
  - rewrite (HeightTrace_no_ledge e c H). cbn [fst snd]. split; auto.
    intros [Hc|Hl]; [ exact Hc | contradiction ].
Qed.

(** X6.  When [HeightTrace] starts a climb.  A character that is not
    climbing is climbing after [HeightTrace] exactly when the downward trace
    reports a hit and the hit point's Z minus the hips' Z is a zero of
    either sign or a negative finite number of magnitude at most 50.  A
    difference that is NaN, infinite or positive, however small, never
    starts a climb. *)
Theorem X6_climb_starts_exactly_in_band
    (e : Engine) (c : AParkourGameCharacter) :
  m_isClimbing c = false ->
  (m_isClimbing (state_of HeightTrace e c) = true
   <-> fst (height_hit e c) = true /\ band_representation (ledge_offset e c)).
Proof.
  intros Hc. rewrite HeightTrace_flag. unfold ledge_detected.
  rewrite in_band_representation. split.
  - intros [H|H]; [ congruence | exact H ].
  - intros H. right. exact H.
Qed.

Lemma X6_witness :
  m_isClimbing Sample.character = false
  /\ ledge_offset Sample.ledge Sample.character
     = S754_finite true 10485760 (-19)
  /\ m_isClimbing (state_of HeightTrace Sample.ledge Sample.character) = true
  /\ ledge_offset Sample.too_high Sample.character
     = S754_finite false 13107200 (-16)
  /\ m_isClimbing (state_of HeightTrace Sample.too_high Sample.character)
     <> true.
Proof.
  pose proof (X6_climb_starts_exactly_in_band
                Sample.ledge Sample.character eq_refl) as [_ Hin].
  pose proof (X6_climb_starts_exactly_in_band
                Sample.too_high Sample.character eq_refl) as [Hout _].
  split; [ reflexivity | ].
  split; [ reflexivity | ].
  split.
  - apply Hin. split; [ reflexivity | left; reflexivity ].
  - split; [ reflexivity | ].
    intros H. destruct (Hout H) as [_ K]. exact K.
Defined.

(** X7.  A surface exactly at hip height is a ledge.  When the downward
    trace hits and the hit point's Z is the very float the HipsSocket's Z is,
    and that float is zero or finite, the difference is the positive zero,
    the upper end of the band, and the character goes into the climbing
    pose.  When either Z is a NaN, nothing happens. *)
Theorem X7_surface_at_hip_height_is_a_ledge
    (e : Engine) (c : AParkourGameCharacter) :
  let hit_z := FVector.Z (Location (snd (height_hit e c))) in
  let hips_z := FVector.Z (SocketLocation (Mesh (Super c)) "HipsSocket") in
  (fst (height_hit e c) = true ->
   hit_z = hips_z ->
   is_finite hips_z = true ->
   ledge_offset e c = S754_zero false
   /\ climbing_pose (state_of HeightTrace e c))
  /\ (hit_z = S754_nan \/ hips_z = S754_nan -> state_of HeightTrace e c = c).
Proof.
  intros hit_z hips_z. split.
  - intros Hhit Hsame Hfin.
    assert (Hoff : ledge_offset e c = S754_zero false).
    { unfold ledge_offset. fold hit_z. fold hips_z. rewrite Hsame.
      now apply sub_self. }
    split; [ exact Hoff | ].
    assert (Hledge : ledge_detected e c).
    { split; [ exact Hhit | ]. rewrite Hoff.
      apply in_band_representation. exact I. }
    unfold state_of. rewrite (HeightTrace_ledge e c Hledge).
    apply climb_sequence_pose.
  - intros Hnan.
    assert (Hoff : ledge_offset e c = S754_nan).
    { unfold ledge_offset. fold hit_z. fold hips_z.
      destruct Hnan as [H|H]; rewrite H;
        [ apply sub_nan_l | apply sub_nan_r ]. }
    assert (Hnot : ~ ledge_detected e c).
    { intros [_ Hband]. rewrite Hoff in Hband.
      exact (nan_not_in_band Hband). }
    unfold state_of. now rewrite (HeightTrace_no_ledge e c Hnot).
Qed.

Lemma X7_witness :
  ledge_offset (Sample.surface_at 100) Sample.character = S754_zero false
  /\ climbing_pose
       (state_of HeightTrace (Sample.surface_at 100) Sample.character).
Proof.
  destruct (X7_surface_at_hip_height_is_a_ledge
              (Sample.surface_at 100) Sample.character) as [Hsame _].
  exact (Hsame eq_refl eq_refl eq_refl).
Defined.

(* ------------------------------------------------------------------ *)
(** ** Whole frames *)

(** X8.  Only the downward trace decides a climb.  After a frame the
    character is climbing exactly when it was climbing before or the frame's
    downward trace found a ledge in the band; what the forward trace returned
    plays no part, so a ledge with no wall in front of the character starts
    a climb too. *)
Theorem X8_frame_climbs_on_downward_trace_alone
    (e : Engine) (dt : float) (c : AParkourGameCharacter) :
  (m_isClimbing (state_of (Tick dt) e c) = true
   <-> m_isClimbing c = true \/ ledge_detected e (after_Super_Tick e dt c))
  /\ (fst (forward_hit e (after_Super_Tick e dt c)) = false ->
      ledge_detected e (after_Super_Tick e dt c) ->
      climbing_pose (state_of (Tick dt) e c)).
Proof.
  split.
  - unfold state_of at 1. rewrite Tick_run. cbn [fst snd].
    rewrite HeightTrace_flag. reflexivity.
  - intros _ Hledge. unfold state_of at 1. rewrite Tick_run. cbn [fst snd].
    unfold state_of.
    rewrite (HeightTrace_ledge e (before_HeightTrace e dt c) Hledge).
    apply climb_sequence_pose.
Qed.

Lemma X8_witness :
  let dt := Float32.of_bits 1 (-6) in
  let wall_less : Engine :=
    {| engine_SphereTraceSingle :=
         fun q hit =>
           match TraceColor q with
           | Color_Red => (false, hit)
           | Color_Blue => engine_SphereTraceSingle Sample.ledge q hit
           end;
       engine_ActorTick := fun _ a => a;
       engine_GetUnitAxis := Sample.unit_axis;
       engine_DeltaSeconds := dt |} in
  fst (forward_hit wall_less (after_Super_Tick wall_less dt Sample.character))
    = false
  /\ climbing_pose (state_of (Tick dt) wall_less Sample.character).
Proof.
  intros dt wall_less.
  destruct (X8_frame_climbs_on_downward_trace_alone
              wall_less dt Sample.character) as [_ Hpose].
  split; [ reflexivity | ].
  apply Hpose; [ reflexivity | ].
  split; [ reflexivity | split; left; vm_compute; reflexivity ].
Defined.

Lemma HeightTrace_keeps_wall (e : Engine) (c : AParkourGameCharacter) :
  m_wallNormal (state_of HeightTrace e c) = m_wallNormal c
  /\ m_wallLocation (state_of HeightTrace e c) = m_wallLocation c.
Proof.
  unfold state_of. destruct (ledge_detected_dec e c) as [H|H].
  - rewrite (HeightTrace_ledge e c H). split; reflexivity.
  - rewrite (HeightTrace_no_ledge e c H). split; reflexivity.
Qed.

(** X9.  After every frame the two wall members hold what that frame's
    forward trace left in its hit result, whether or not the frame started a
    climb: [HeightTrace] and the climb it may start never write them, and
    nothing of an earlier frame's wall survives. *)
Theorem X9_frame_leaves_forward_hit_in_wall_members
    (e : Engine) (dt : float) (c : AParkourGameCharacter) :
  let hit := snd (forward_hit e (after_Super_Tick e dt c)) in
  m_wallNormal (state_of (Tick dt) e c) = Normal hit
  /\ m_wallLocation (state_of (Tick dt) e c) = Location hit
  /\ (forall c',
        Super c' = Super c ->
        m_wallNormal (state_of (Tick dt) e c')
          = m_wallNormal (state_of (Tick dt) e c)
        /\ m_wallLocation (state_of (Tick dt) e c')
           = m_wallLocation (state_of (Tick dt) e c)).
Proof.
  intros hit.
  assert (Hframe : forall c0,
            m_wallNormal (state_of (Tick dt) e c0)
              = Normal (snd (forward_hit e (after_Super_Tick e dt c0)))
            /\ m_wallLocation (state_of (Tick dt) e c0)
               = Location (snd (forward_hit e (after_Super_Tick e dt c0)))).
  { intros c0. unfold state_of at 1 2. rewrite Tick_run. cbn [fst snd].
    destruct (HeightTrace_keeps_wall e (before_HeightTrace e dt c0))
      as [Hn Hl].
    rewrite Hn, Hl. split; reflexivity. }
  destruct (Hframe c) as [Hn Hl].
  split; [ exact Hn | split; [ exact Hl | ] ].
  intros c' Hsuper. destruct (Hframe c') as [Hn' Hl'].
  rewrite Hn', Hl', Hn, Hl. unfold hit, forward_hit, forward_query,
    after_Super_Tick. cbn [Super set_Super]. rewrite Hsuper.
  split; reflexivity.
Qed.

Lemma X9_witness :
  let dt := Float32.of_bits 1 (-6) in
  let other := with_wall FHitResult_ForceInit Sample.climber in
  m_wallNormal other <> m_wallNormal Sample.character
  /\ m_wallNormal (state_of (Tick dt) Sample.ledge other)
     = m_wallNormal (state_of (Tick dt) Sample.ledge Sample.character).
Proof.
  intros dt other.
  destruct (X9_frame_leaves_forward_hit_in_wall_members
              Sample.ledge dt Sample.character) as [_ [_ Hsame]].
  split; [ intros H; discriminate H | ].
  exact (proj1 (Hsame other eq_refl)).
Defined.

(** X10.  Sprinting and the traces do not interfere.  Changing the walk
    speed before a trace gives the same calls and the same character as
    changing it after: neither trace reads the walk speed, and the climb a
    downward trace may start leaves the walk speed alone. *)
Theorem X10_sprint_commutes_with_traces
    (e : Engine) (c : AParkourGameCharacter) :
  (state_of HeightTrace e (state_of StartSprint e c)
     = state_of StartSprint e (state_of HeightTrace e c)
   /\ state_of HeightTrace e (state_of StopSprint e c)
      = state_of StopSprint e (state_of HeightTrace e c)
   /\ calls_of HeightTrace e (state_of StartSprint e c)
      = calls_of HeightTrace e c
   /\ calls_of HeightTrace e (state_of StopSprint e c)
      = calls_of HeightTrace e c)
  /\ (state_of ForwardTrace e (state_of StartSprint e c)
        = state_of StartSprint e (state_of ForwardTrace e c)
      /\ state_of ForwardTrace e (state_of StopSprint e c)
         = state_of StopSprint e (state_of ForwardTrace e c)
      /\ calls_of ForwardTrace e (state_of StartSprint e c)
         = calls_of ForwardTrace e c
      /\ calls_of ForwardTrace e (state_of StopSprint e c)
         = calls_of ForwardTrace e c).
Proof.
  split; [ | repeat split ].
  assert (Hcalls : forall c0,
            (ledge_detected e c0 <-> ledge_detected e c) ->
            Climb c0 = Climb c ->
            height_query c0 = height_query c ->
            calls_of HeightTrace e c0 = calls_of HeightTrace e c).
  { intros c0 Hiff Hclimb Hq. unfold calls_of.
    destruct (ledge_detected_dec e c) as [H|H].
    - rewrite (HeightTrace_ledge e c H).
      rewrite (HeightTrace_ledge e c0 (proj2 Hiff H)). cbn [fst snd].
      unfold climb_calls. now rewrite Hclimb, Hq.
    - rewrite (HeightTrace_no_ledge e c H).
      assert (H0 : ~ ledge_detected e c0) by (intros K; apply H, Hiff, K).
      rewrite (HeightTrace_no_ledge e c0 H0). cbn [fst snd].
      now rewrite Hq. }
  assert (Hstart : state_of HeightTrace e (state_of StartSprint e c)
                   = state_of StartSprint e (state_of HeightTrace e c)).
  { unfold state_of at 1 4. destruct (ledge_detected_dec e c) as [H|H].
    - assert (H1 : ledge_detected e (state_of StartSprint e c)) by exact H.
      rewrite (HeightTrace_ledge e _ H1), (HeightTrace_ledge e c H).
      reflexivity.
    - assert (H1 : ~ ledge_detected e (state_of StartSprint e c)) by exact H.
      rewrite (HeightTrace_no_ledge e _ H1), (HeightTrace_no_ledge e c H).
      reflexivity. }
  assert (Hstop : state_of HeightTrace e (state_of StopSprint e c)
                  = state_of StopSprint e (state_of HeightTrace e c)).
  { unfold state_of at 1 4. destruct (ledge_detected_dec e c) as [H|H].
    - assert (H1 : ledge_detected e (state_of StopSprint e c)) by exact H.
      rewrite (HeightTrace_ledge e _ H1), (HeightTrace_ledge e c H).
      reflexivity.
    - assert (H1 : ~ ledge_detected e (state_of StopSprint e c)) by exact H.
      rewrite (HeightTrace_no_ledge e _ H1), (HeightTrace_no_ledge e c H).
      reflexivity. }
  split; [ exact Hstart | split; [ exact Hstop | split ] ];
    apply Hcalls; reflexivity.
Qed.

(* ------------------------------------------------------------------ *)
(** ** What no operation writes *)

Lemma preserves_ret {T : Type} (f : AParkourGameCharacter -> T) :
  preserves f (ret tt).
Proof. intros e c. reflexivity. Qed.

Lemma preserves_seq {T : Type} (f : AParkourGameCharacter -> T)
    (m1 m2 : M unit) :
  preserves f m1 -> preserves f m2 -> preserves f (m1 ;; m2).
Proof.
  intros H1 H2 e c.
  rewrite (proj1 (bind_run m1 (fun _ => m2) e c)).
  rewrite H2. apply H1.
Qed.

Ltac preserves_by_cases :=
  intros e c; unfold state_of;
  cbv [MoveForward MoveRight TurnAtRate LookUpAtRate TouchStarted
       TouchStopped OnResetVR StartSprint StopSprint Hang];
  run_M;
  repeat match goal with
         | |- context [match ?x with Some _ => _ | None => _ end] =>
             destruct x; run_M
         | |- context [if ?b then _ else _] => destruct b; run_M
         end;
  reflexivity.

Lemma configuration_call_action (h : ActionHandler) :
  preserves configuration (call_action h).
Proof. destruct h; preserves_by_cases. Qed.

Lemma configuration_call_axis (h : AxisHandler) (Value : float) :
  preserves configuration (call_axis h Value).
Proof. destruct h; cbn [call_axis]; preserves_by_cases. Qed.

Lemma configuration_call_touch (h : TouchHandler) (i : ETouchIndex)
    (l : FVector) :
  preserves configuration (call_touch h i l).
Proof. destruct h; preserves_by_cases. Qed.

Lemma configuration_fire (i : InputEvent) (b : Binding) :
  preserves configuration (fire i b).
Proof.
  destruct i, b; cbn [fire]; try apply preserves_ret;
    match goal with
    | |- preserves _ (if ?t then _ else _) => destruct t
    end;
    first [ apply preserves_ret | apply configuration_call_action
          | apply configuration_call_axis | apply configuration_call_touch ].
Qed.

Lemma configuration_deliver (bindings : list Binding) (i : InputEvent) :
  preserves configuration (deliver bindings i).
Proof.
  induction bindings as [|b rest IH]; cbn [deliver].
  - apply preserves_ret.
  - apply preserves_seq; [ apply configuration_fire | exact IH ].
Qed.

Lemma configuration_HeightTrace : preserves configuration HeightTrace.
Proof.
  intros e c. unfold state_of. destruct (ledge_detected_dec e c) as [H|H].
  - rewrite (HeightTrace_ledge e c H). reflexivity.
  - rewrite (HeightTrace_no_ledge e c H). reflexivity.
Qed.

Lemma configuration_Tick (dt : float) : preserves configuration (Tick dt).
Proof.
  intros e c. unfold state_of at 1. rewrite Tick_run. cbn [fst snd].
  rewrite configuration_HeightTrace. reflexivity.
Qed.

Lemma configuration_exec (op : Op) : preserves configuration (exec op).
Proof.
  destruct op; cbn [exec];
    first [ apply configuration_Tick
          | apply configuration_HeightTrace
          | apply configuration_deliver
          | preserves_by_cases ].
Qed.

(** X11.  What the constructor configures stays configured.  No operation
    of the class, and no input delivered through its bindings, writes the
    two turn rates, the Climb montage reference, the camera boom or the
    follow camera; so along every run from a freshly constructed character
    both rates are 45, the boom is 300 long and follows the control
    rotation, and the camera does not. *)
Theorem X11_configuration_is_never_rewritten
    (ops : list (Engine * Op)) :
  (forall c, configuration (run ops c) = configuration c)
  /\ (forall base climb n0 l0,
        let c := run ops (AParkourGameCharacter_ctor base climb n0 l0) in
        BaseTurnRate c = f32 45
        /\ BaseLookUpRate c = f32 45
        /\ Climb c = climb
        /\ CameraBoom c = mkSpringArm RootComponent (f32 300) true
        /\ FollowCamera c
           = mkCamera CameraBoomComponent "SpringEndpoint" false).
Proof.
  assert (Hrun : forall c, configuration (run ops c) = configuration c).
  { induction ops as [|[e op] rest IH]; intros c; [ reflexivity | ].
    cbn [run]. rewrite IH. apply configuration_exec. }
  split; [ exact Hrun | ].
  intros base climb n0 l0 c.
  pose proof (Hrun (AParkourGameCharacter_ctor base climb n0 l0)) as H.
  fold c in H. unfold configuration in H. cbn in H.
  inversion H. repeat split; assumption.
Qed.

(* ------------------------------------------------------------------ *)
(** ** Movement input, further *)






(* ------------------------------------------------------------------ *)
(** ** The rate handlers *)

(** X13.  The rate handlers are not gated and always use the constructed
    rate.  On a character reached by any run from the constructor,
    [TurnAtRate] makes exactly one call, [AddControllerYawInput] of the rate
    times 45 times the frame's delta seconds (multiplied in that order), and
    [LookUpAtRate] the same with [AddControllerPitchInput]; they leave the
    character unchanged, and, unlike the movement handlers, they test
    neither the rate for zero nor the controller for null. *)
Theorem X13_rate_handlers_scale_by_45_and_frame_time
    (ops : list (Engine * Op)) (base : ACharacter) (climb : UAnimMontage)
    (n0 l0 : FVector) (e : Engine) (Rate : float) :
  let c := run ops (AParkourGameCharacter_ctor base climb n0 l0) in
  TurnAtRate Rate e c
  = (tt, c,
     [Call_AddControllerYawInput
        ((Rate * f32 45) * engine_DeltaSeconds e)%f32])
  /\ LookUpAtRate Rate e c
     = (tt, c,
        [Call_AddControllerPitchInput
           ((Rate * f32 45) * engine_DeltaSeconds e)%f32]).
Proof.
  intros c.
  assert (Hconf : configuration c
                  = configuration (AParkourGameCharacter_ctor base climb n0 l0)).
  { unfold c. clear c.
    generalize (AParkourGameCharacter_ctor base climb n0 l0).
    induction ops as [|[e0 op] rest IH]; intros c0; [ reflexivity | ].
    cbn [run]. rewrite IH. apply configuration_exec. }
  assert (Ht : BaseTurnRate c = f32 45)
    by exact (f_equal (fun p => snd (fst (fst p))) Hconf).
  assert (Hl : BaseLookUpRate c = f32 45)
    by exact (f_equal (fun p => snd (fst p)) Hconf).
  unfold TurnAtRate, LookUpAtRate. run_M. rewrite Ht, Hl.
  split; reflexivity.
Qed.

Example rate_handlers_ignore_controller_and_zero :
  calls_of (TurnAtRate (f32 0)) Sample.empty_world Sample.unpossessed
  = [Call_AddControllerYawInput (f32 0)]
  /\ calls_of (MoveForward (f32 0)) Sample.empty_world Sample.unpossessed = [].
Proof. split; reflexivity. Qed.
